(** * Cashper front end: endpoint resolution, access guard, aggregator

    A shallow embedding of the access-control-and-routing core of the
    Cashper web portal:

    - [cashper_frontend/src/config/api.js]          (module [Api])
    - the two copies of [config/api.config.js]      (modules [ApiConfig]
      and [ApiConfigFallback])
    - [cashper_frontend/src/components/ProtectedRoute.jsx]
    - the dashboard application service ([getUserApplications])

    JavaScript strings are sequences of UTF-16 code units; they are modelled
    as lists of [N].  [undefined] and [null] are modelled by [None]. *)

From Stdlib Require Import List NArith Bool String Ascii Lia.
Import ListNotations.

Set Warnings "-register-all".

(* ================================================================== *)
(** * JavaScript strings *)
(* ================================================================== *)

Definition jsstring := list N.

(** A literal: the code units of an ASCII/Latin-1 source literal. *)
Definition js (s : string) : jsstring :=
  List.map N_of_ascii (list_ascii_of_string s).

Fixpoint jsstring_eqb (a b : jsstring) : bool :=
  match a, b with
  | [], [] => true
  | x :: a', y :: b' => N.eqb x y && jsstring_eqb a' b'
  | _, _ => false
  end.

(** [String.prototype.startsWith(p)] with the default position 0. *)
Fixpoint startsWith (s p : jsstring) {struct p} : bool :=
  match p with
  | [] => true
  | c :: p' =>
      match s with
      | [] => false
      | d :: s' => N.eqb d c && startsWith s' p'
      end
  end.

(** ToBoolean on a string: only the empty string is falsy. *)
Definition truthy (s : jsstring) : bool :=
  match s with [] => false | _ :: _ => true end.

(** ToBoolean on a value that is a string, [undefined] or [null]. *)
Definition truthy_opt (v : option jsstring) : bool :=
  match v with Some s => truthy s | None => false end.

(** [a || b] where [a] is a string or [undefined] and [b] a string. *)
Definition or_else (a : option jsstring) (b : jsstring) : jsstring :=
  match a with
  | Some s => if truthy s then s else b
  | None => b
  end.

(** [s.replace(/^http/, 'ws')]: the pattern is anchored at the start and the
    replacement text has no [$] pattern, so at most the first four code units
    are rewritten. *)
Definition replace_http_ws (s : jsstring) : jsstring :=
  if startsWith s (js "http") then js "ws" ++ skipn 4 s else s.

(** The build-time environment read through [import.meta.env]. *)
Record ImportMetaEnv := { VITE_API_URL : option jsstring }.

Definition LOCAL_DEV_ORIGIN : jsstring := js "http://localhost:8000".

(** A URL reference is origin-relative when it is a path: it begins with a
    single slash, so it carries neither a scheme nor a host. *)
Definition isOriginRelative (u : jsstring) : bool :=
  startsWith u (js "/") && negb (startsWith u (js "//")).

(* ================================================================== *)
(** * config/api.js *)
(* ================================================================== *)

Module Api.

Module Loans.
Record t := { personal : jsstring; home : jsstring;
              business : jsstring; shortTerm : jsstring }.
End Loans.
Module Insurance.
Record t := { health : jsstring; motor : jsstring; term : jsstring }.
End Insurance.
Module Investments.
Record t := { sip : jsstring; mutualFunds : jsstring;
              management : jsstring }.
End Investments.
Module Tax.
Record t := { personal : jsstring; business : jsstring }.
End Tax.
Module Services.
Record t := { retail : jsstring; business : jsstring;
              corporate : jsstring }.
End Services.

Record Endpoints := {
  admin : jsstring;
  auth : jsstring;
  dashboard : jsstring;
  loans : Loans.t;
  insurance : Insurance.t;
  investments : Investments.t;
  tax : Tax.t;
  services : Services.t;
  settings : jsstring;
  notifications : jsstring;
  loanManagement : jsstring
}.

Record WsEndpoints := { adminDashboard : jsstring }.

Section WithEnv.
Variable env : ImportMetaEnv.

(** [import.meta.env.VITE_API_URL || ''] *)
Definition API_ROOT : jsstring := or_else (VITE_API_URL env) [].

Definition API_BASE_URL : jsstring := API_ROOT ++ js "/api".

Definition API_ENDPOINTS : Endpoints := {|
  admin := API_ROOT ++ js "/api/admin";
  auth := API_ROOT ++ js "/api/auth";
  dashboard := API_ROOT ++ js "/api/dashboard";
  loans := {|
    Loans.personal := API_ROOT ++ js "/api/personal-loan";
    Loans.home := API_ROOT ++ js "/api/home-loan";
    Loans.business := API_ROOT ++ js "/api/business-loan";
    Loans.shortTerm := API_ROOT ++ js "/api/short-term-loan" |};
  insurance := {|
    Insurance.health := API_ROOT ++ js "/api/health-insurance";
    Insurance.motor := API_ROOT ++ js "/api/motor-insurance";
    Insurance.term := API_ROOT ++ js "/api/term-insurance" |};
  investments := {|
    Investments.sip := API_ROOT ++ js "/api/sip";
    Investments.mutualFunds := API_ROOT ++ js "/api/mutual-funds";
    Investments.management := API_ROOT ++ js "/api/investment-management" |};
  tax := {|
    Tax.personal := API_ROOT ++ js "/api/personal-tax";
    Tax.business := API_ROOT ++ js "/api/business-tax" |};
  services := {|
    Services.retail := API_ROOT ++ js "/api/retail-services";
    Services.business := API_ROOT ++ js "/api/business-services";
    Services.corporate := API_ROOT ++ js "/api/corporate-services" |};
  settings := API_ROOT ++ js "/api/settings";
  notifications := API_ROOT ++ js "/api/notifications";
  loanManagement := API_ROOT ++ js "/api/loan-management"
|}.

Definition getWebSocketUrl : jsstring :=
  let baseUrl := if truthy API_ROOT then API_ROOT else LOCAL_DEV_ORIGIN in
  replace_http_ws baseUrl.

Definition WS_ENDPOINTS : WsEndpoints := {|
  adminDashboard := getWebSocketUrl ++ js "/api/admin/ws/dashboard"
|}.

End WithEnv.

(** Every URL held by the HTTP endpoint table, nested tables flattened in
    source order. *)
Definition endpoint_urls (e : Endpoints) : list jsstring :=
  [ admin e; auth e; dashboard e;
    Loans.personal (loans e); Loans.home (loans e);
    Loans.business (loans e); Loans.shortTerm (loans e);
    Insurance.health (insurance e); Insurance.motor (insurance e);
    Insurance.term (insurance e);
    Investments.sip (investments e); Investments.mutualFunds (investments e);
    Investments.management (investments e);
    Tax.personal (tax e); Tax.business (tax e);
    Services.retail (services e); Services.business (services e);
    Services.corporate (services e);
    settings e; notifications e; loanManagement e ].

End Api.

(* ================================================================== *)
(** * config/api.config.js, the copy that tests for [undefined] *)
(* ================================================================== *)

Module ApiConfig.
Section WithEnv.
Variable env : ImportMetaEnv.

Definition envApiUrl : option jsstring := VITE_API_URL env.

(** [envApiUrl !== undefined ? envApiUrl : 'http://localhost:8000'] *)
Definition API_BASE_URL : jsstring :=
  match envApiUrl with
  | Some u => u
  | None => LOCAL_DEV_ORIGIN
  end.

Definition API_ENDPOINT : jsstring := API_BASE_URL ++ js "/api".

(** [path] may be [undefined]/[null] ([None]) or a string. *)
Definition getAssetUrl (path : option jsstring) : jsstring :=
  match path with
  | None => []
  | Some path =>
      if negb (truthy path) then []
      else if startsWith path (js "http://") || startsWith path (js "https://")
      then path
      else
        let normalizedPath :=
          if startsWith path (js "/") then path else js "/" ++ path in
        API_BASE_URL ++ normalizedPath
  end.
End WithEnv.
End ApiConfig.

(* ================================================================== *)
(** * config/api.config.js, the copy that falls back with [||] *)
(* ================================================================== *)

Module ApiConfigFallback.
Section WithEnv.
Variable env : ImportMetaEnv.

(** [import.meta.env.VITE_API_URL || 'http://localhost:8000'] *)
Definition API_BASE_URL : jsstring :=
  or_else (VITE_API_URL env) LOCAL_DEV_ORIGIN.

Definition API_ENDPOINT : jsstring := API_BASE_URL ++ js "/api".

Definition getAssetUrl (path : option jsstring) : jsstring :=
  match path with
  | None => []
  | Some path =>
      if negb (truthy path) then []
      else if startsWith path (js "http://") || startsWith path (js "https://")
      then path
      else
        let normalizedPath :=
          if startsWith path (js "/") then path else js "/" ++ path in
        API_BASE_URL ++ normalizedPath
  end.
End WithEnv.
End ApiConfigFallback.

(* ================================================================== *)
(** * JSON.parse *)
(* ================================================================== *)

(** The values [JSON.parse] can produce.  A number keeps the text of its
    literal: the code only compares parsed values with [true] and with a
    string, so the numeric value is never consulted.  Object members are
    kept in source order, duplicates included. *)
Inductive JSValue :=
| JNull
| JBool (b : bool)
| JNumber (literal : jsstring)
| JString (s : jsstring)
| JArray (elements : list JSValue)
| JObject (members : list (jsstring * JSValue)).

(** Exceptions.  [SyntaxError], [TypeError] and [RangeError] are raised by
    the language; [AuthError] and [HTTPError] are what a request transport
    may reject with. *)
Inductive Exn :=
| SyntaxError
| TypeError
| RangeError
| AuthError
| HTTPError (status : N).

Inductive Completion (A : Type) :=
| Normal (a : A)
| Throw (e : Exn).
Arguments Normal {A} a.
Arguments Throw {A} e.

Definition is_ws (c : N) : bool :=
  (c =? 9)%N || (c =? 10)%N || (c =? 13)%N || (c =? 32)%N.

Fixpoint skip_ws (s : jsstring) : jsstring :=
  match s with
  | c :: s' => if is_ws c then skip_ws s' else s
  | [] => []
  end.

Definition is_digit (c : N) : bool := (48 <=? c)%N && (c <=? 57)%N.

(** The longest prefix of decimal digits, and what follows it. *)
Fixpoint span_digits (s : jsstring) : jsstring * jsstring :=
  match s with
  | c :: s' =>
      if is_digit c
      then let (d, r) := span_digits s' in (c :: d, r)
      else ([], s)
  | [] => ([], [])
  end.

Definition hex_val (c : N) : option N :=
  if is_digit c then Some (c - 48)%N
  else if (97 <=? c)%N && (c <=? 102)%N then Some (c - 87)%N
  else if (65 <=? c)%N && (c <=? 70)%N then Some (c - 55)%N
  else None.

Definition hex4 (a b c d : N) : option N :=
  match hex_val a, hex_val b, hex_val c, hex_val d with
  | Some x, Some y, Some z, Some t => Some (((x * 16 + y) * 16 + z) * 16 + t)%N
  | _, _, _, _ => None
  end.

(** The code unit denoted by a single-character escape. *)
Definition escape (c : N) : option N :=
  if (c =? 34)%N then Some 34%N        (* quote *)
  else if (c =? 92)%N then Some 92%N   (* backslash *)
  else if (c =? 47)%N then Some 47%N   (* slash *)
  else if (c =? 98)%N then Some 8%N    (* backspace *)
  else if (c =? 102)%N then Some 12%N  (* form feed *)
  else if (c =? 110)%N then Some 10%N  (* line feed *)
  else if (c =? 114)%N then Some 13%N  (* carriage return *)
  else if (c =? 116)%N then Some 9%N   (* tab *)
  else None.

Definition cons_char (c : N) (r : option (jsstring * jsstring))
  : option (jsstring * jsstring) :=
  match r with
  | Some (str, rest) => Some (c :: str, rest)
  | None => None
  end.

(** The characters of a string literal after its opening quote: the decoded
    string and the input after the closing quote. *)
Fixpoint parse_chars (s : jsstring) : option (jsstring * jsstring) :=
  match s with
  | [] => None
  | c :: s' =>
      if (c =? 34)%N then Some ([], s')
      else if (c =? 92)%N then
        match s' with
        | [] => None
        | e :: s'' =>
            if (e =? 117)%N then
              match s'' with
              | h1 :: h2 :: h3 :: h4 :: s3 =>
                  match hex4 h1 h2 h3 h4 with
                  | Some u => cons_char u (parse_chars s3)
                  | None => None
                  end
              | _ => None
              end
            else
              match escape e with
              | Some u => cons_char u (parse_chars s'')
              | None => None
              end
        end
      else if (c <? 32)%N then None
      else cons_char c (parse_chars s')
  end.

(** An optional minus sign, then either a single zero or a non-zero digit
    followed by digits: the literal text and the rest of the input. *)
Definition parse_int (s : jsstring) : option (jsstring * jsstring) :=
  let (sign, s1) :=
    match s with
    | c :: s' => if (c =? 45)%N then ([c], s') else ([], s)
    | [] => ([], s)
    end in
  match s1 with
  | c :: s2 =>
      if (c =? 48)%N then Some (sign ++ [c], s2)
      else if is_digit c
      then let (d, r) := span_digits s2 in Some (sign ++ c :: d, r)
      else None
  | [] => None
  end.

(** An optional fraction: a dot followed by at least one digit. *)
Definition parse_frac (s : jsstring) : option (jsstring * jsstring) :=
  match s with
  | c :: s' =>
      if (c =? 46)%N then
        match span_digits s' with
        | ([], _) => None
        | (d, r) => Some (c :: d, r)
        end
      else Some ([], s)
  | [] => Some ([], s)
  end.

(** An optional exponent: e or E, an optional sign, at least one digit. *)
Definition parse_exp (s : jsstring) : option (jsstring * jsstring) :=
  match s with
  | c :: s' =>
      if (c =? 101)%N || (c =? 69)%N then
        let (sign, s1) :=
          match s' with
          | g :: s'' =>
              if (g =? 43)%N || (g =? 45)%N then ([g], s'') else ([], s')
          | [] => ([], s')
          end in
        match span_digits s1 with
        | ([], _) => None
        | (d, r) => Some (c :: sign ++ d, r)
        end
      else Some ([], s)
  | [] => Some ([], s)
  end.

Definition parse_number (s : jsstring) : option (jsstring * jsstring) :=
  match parse_int s with
  | Some (i, r1) =>
      match parse_frac r1 with
      | Some (f, r2) =>
          match parse_exp r2 with
          | Some (e, r3) => Some (i ++ f ++ e, r3)
          | None => None
          end
      | None => None
      end
  | None => None
  end.

(** Outcome of parsing one production: a value and the remaining input, a
    syntax error, or exhaustion of the recursion budget. *)
Inductive PResult (A : Type) :=
| POk (a : A) (rest : jsstring)
| PSyntax
| PFuel.
Arguments POk {A} a rest.
Arguments PSyntax {A}.
Arguments PFuel {A}.

(** Recursive descent over the JSON grammar.  [parse_elements] reads the
    elements of a non-empty array after its bracket, [parse_members] the
    members of a non-empty object after its brace. *)
Fixpoint parse_value (fuel : nat) (s : jsstring) {struct fuel}
  : PResult JSValue :=
  match fuel with
  | O => PFuel
  | S f =>
      match skip_ws s with
      | [] => PSyntax
      | c :: rest =>
          if (c =? 123)%N then
            match skip_ws rest with
            | d :: rest' =>
                if (d =? 125)%N then POk (JObject []) rest'
                else parse_members f rest []
            | [] => PSyntax
            end
          else if (c =? 91)%N then
            match skip_ws rest with
            | d :: rest' =>
                if (d =? 93)%N then POk (JArray []) rest'
                else parse_elements f rest []
            | [] => PSyntax
            end
          else if (c =? 34)%N then
            match parse_chars rest with
            | Some (str, r) => POk (JString str) r
            | None => PSyntax
            end
          else if startsWith (c :: rest) (js "true")
          then POk (JBool true) (skipn 3 rest)
          else if startsWith (c :: rest) (js "false")
          then POk (JBool false) (skipn 4 rest)
          else if startsWith (c :: rest) (js "null")
          then POk JNull (skipn 3 rest)
          else
            match parse_number (c :: rest) with
            | Some (lit, r) => POk (JNumber lit) r
            | None => PSyntax
            end
      end
  end
with parse_elements (fuel : nat) (s : jsstring) (acc : list JSValue)
  {struct fuel} : PResult JSValue :=
  match fuel with
  | O => PFuel
  | S f =>
      match parse_value f s with
      | POk v r =>
          match skip_ws r with
          | c :: r' =>
              if (c =? 44)%N then parse_elements f r' (v :: acc)
              else if (c =? 93)%N then POk (JArray (rev (v :: acc))) r'
              else PSyntax
          | [] => PSyntax
          end
      | PSyntax => PSyntax
      | PFuel => PFuel
      end
  end
with parse_members (fuel : nat) (s : jsstring)
  (acc : list (jsstring * JSValue)) {struct fuel} : PResult JSValue :=
  match fuel with
  | O => PFuel
  | S f =>
      match skip_ws s with
      | q :: r1 =>
          if (q =? 34)%N then
            match parse_chars r1 with
            | Some (key, r2) =>
                match skip_ws r2 with
                | colon :: r3 =>
                    if (colon =? 58)%N then
                      match parse_value f r3 with
                      | POk v r4 =>
                          match skip_ws r4 with
                          | c :: r5 =>
                              if (c =? 44)%N
                              then parse_members f r5 ((key, v) :: acc)
                              else if (c =? 125)%N
                              then POk (JObject (rev ((key, v) :: acc))) r5
                              else PSyntax
                          | [] => PSyntax
                          end
                      | PSyntax => PSyntax
                      | PFuel => PFuel
                      end
                    else PSyntax
                | [] => PSyntax
                end
            | None => PSyntax
            end
          else PSyntax
      | [] => PSyntax
      end
  end.

(** [JSON.parse(text)]: one value, surrounded by optional white space.
    The recursion budget is twice the length of the text plus one, which
    [parse_value_fuel] shows is never exhausted. *)
Definition JSON_parse (text : jsstring) : Completion JSValue :=
  match parse_value (S (2 * List.length text)) text with
  | POk v r =>
      match skip_ws r with
      | [] => Normal v
      | _ :: _ => Throw SyntaxError
      end
  | PSyntax => Throw SyntaxError
  | PFuel => Throw RangeError
  end.

(** JSON text in examples is written with ['] in place of the double
    quote. *)
Definition json_text (s : string) : jsstring :=
  List.map (fun c => if (c =? 39)%N then 34%N else c) (js s).

(* ================================================================== *)
(** * The browser world and the effect monad *)
(* ================================================================== *)

(** [localStorage]: keys and their string values. *)
Definition Storage := list (jsstring * jsstring).

(** [localStorage.getItem(key)]: the stored string, or [null] ([None]). *)
Fixpoint getItem (st : Storage) (key : jsstring) : option jsstring :=
  match st with
  | [] => None
  | (k, v) :: st' => if jsstring_eqb k key then Some v else getItem st' key
  end.

(** An outbound request as handed to the request transport. *)
Record Request := {
  url : jsstring;
  method : jsstring;
  headers : list (jsstring * jsstring)
}.

(** What the code can observe or change: durable client storage, the lines
    written with [console.error], and the requests put on the network. *)
Record World := {
  localStorage : Storage;
  console : list (jsstring * Exn);
  network : list Request
}.

(** A computation reads and updates the world and either completes normally
    or throws; the world changes made before a throw persist. *)
Definition JS (A : Type) : Type := World -> Completion A * World.

Definition ret {A} (a : A) : JS A := fun w => (Normal a, w).

Definition throw {A} (e : Exn) : JS A := fun w => (Throw e, w).

Definition bind {A B} (c : JS A) (k : A -> JS B) : JS B :=
  fun w =>
    match c w with
    | (Normal a, w') => k a w'
    | (Throw e, w') => (Throw e, w')
    end.

(** [try { c } catch (e) { h e }] *)
Definition try_catch {A} (c : JS A) (h : Exn -> JS A) : JS A :=
  fun w =>
    match c w with
    | (Normal a, w') => (Normal a, w')
    | (Throw e, w') => h e w'
    end.

Definition lift {A} (c : Completion A) : JS A := fun w => (c, w).

Declare Scope js_scope.
Delimit Scope js_scope with js.
Notation "x <- c ;; k" := (bind c (fun x => k))
  (at level 61, c at next level, right associativity) : js_scope.
Notation "c ;;; k" := (bind c (fun _ => k))
  (at level 61, right associativity) : js_scope.
Local Open Scope js_scope.

Definition localStorage_getItem (key : jsstring) : JS (option jsstring) :=
  fun w => (Normal (getItem (localStorage w) key), w).

Definition console_error (msg : jsstring) (e : Exn) : JS unit :=
  fun w => (Normal tt,
            {| localStorage := localStorage w;
               console := console w ++ [(msg, e)];
               network := network w |}).

(** ToString of a value that is a string or [null], as a template literal
    or [JSON.parse] applies it. *)
Definition toString (v : option jsstring) : jsstring :=
  match v with
  | Some s => s
  | None => js "null"
  end.

(** The value of an own property of a parsed object: with duplicate names
    the last member wins. *)
Definition lookup_member (key : jsstring) (ms : list (jsstring * JSValue))
  : option JSValue :=
  fold_left
    (fun found kv => if jsstring_eqb (fst kv) key then Some (snd kv) else found)
    ms None.

(** [v.key] for the property names the guard reads ([isAdmin], [role]):
    reading a property of [null] throws a [TypeError]; an object yields its
    member or [undefined] ([None]); booleans, numbers, strings and arrays
    have no such property and yield [undefined]. *)
Definition getProp (v : JSValue) (key : jsstring) : JS (option JSValue) :=
  match v with
  | JNull => throw TypeError
  | JObject ms => ret (lookup_member key ms)
  | _ => ret None
  end.

(** [v === true] *)
Definition strict_eq_true (v : option JSValue) : bool :=
  match v with
  | Some (JBool true) => true
  | _ => false
  end.

(** [v === s] for a string literal [s] *)
Definition strict_eq_string (v : option JSValue) (s : jsstring) : bool :=
  match v with
  | Some (JString x) => jsstring_eqb x s
  | _ => false
  end.

(* ================================================================== *)
(** * components/ProtectedRoute.jsx *)
(* ================================================================== *)

(** What the component returns: a [<Navigate to=... replace />] element or
    the protected [element] itself. *)
Inductive Rendered (E : Type) :=
| Navigate (to : jsstring) (replace : bool)
| Element (e : E).
Arguments Navigate {E} to replace.
Arguments Element {E} e.

(** [userData.isAdmin === true || userData.role === 'admin'] *)
Definition isUserAdmin_of (userData : JSValue) : JS bool :=
  flag <- getProp userData (js "isAdmin") ;;
  if strict_eq_true flag then ret true
  else
    role <- getProp userData (js "role") ;;
    ret (strict_eq_string role (js "admin")).

(** The [try] block yields [Some r] when it returns [r] from the component
    and [None] when control falls through to the final [return element]. *)
Definition ProtectedRoute {E} (element : E) (isAdmin : bool)
  : JS (Rendered E) :=
  token <- localStorage_getItem (js "access_token") ;;
  user <- localStorage_getItem (js "user") ;;
  if negb (truthy_opt token) || negb (truthy_opt user)
  then ret (Navigate (js "/login") true)
  else
    if isAdmin then
      early <-
        try_catch
          (userData <- lift (JSON_parse (toString user)) ;;
           isUserAdmin <- isUserAdmin_of userData ;;
           if negb isUserAdmin
           then ret (Some (Navigate (js "/dashboard") true))
           else ret None)
          (fun e =>
             console_error (js "Error parsing user data:") e ;;;
             ret (Some (Navigate (js "/login") true))) ;;
      match early with
      | Some r => ret r
      | None => ret (Element element)
      end
    else ret (Element element).

(** The privilege a route asks for: a route wrapped without the [isAdmin]
    prop only asks for a session, one wrapped with it for an admin. *)
Inductive Privilege := AUTHENTICATED | ADMIN.

Definition isAdmin_prop (p : Privilege) : bool :=
  match p with
  | AUTHENTICATED => false
  | ADMIN => true
  end.

(* ================================================================== *)
(** * The dashboard application service *)
(* ================================================================== *)

Module DashboardApi.
Section WithCollaborators.
(** [apiRequest] and [getAuthToken] are imported from the services' [api]
    module; they are taken as given. *)
Variable env : ImportMetaEnv.
Variable apiRequest : Request -> JS JSValue.
Variable getAuthToken : JS (option jsstring).

Definition API_BASE_URL : jsstring := Api.dashboard (Api.API_ENDPOINTS env).

(** The request [getUserApplications] builds for a given token. *)
Definition applications_request (token : option jsstring) : Request := {|
  url := API_BASE_URL ++ js "/applications";
  method := js "GET";
  headers := [ (js "Authorization", js "Bearer " ++ toString token);
               (js "Content-Type", js "application/json") ]
|}.

(** An [async] function: awaiting a promise is sequencing, a rejection is a
    throw. *)
Definition getUserApplications : JS JSValue :=
  try_catch
    (token <- getAuthToken ;;
     response <- apiRequest (applications_request token) ;;
     ret response)
    (fun error =>
       console_error (js "Error fetching user applications:") error ;;;
       throw error).

End WithCollaborators.
End DashboardApi.

(** Modelled from the spec: [apiRequest] lives in the services' [api]
    module, whose source is absent.  The specification calls it the
    authenticated request transport, which the session store adapter feeds
    with who is asking.  A missing token at request time fails with an
    [AuthError] without issuing a network call; otherwise the transport
    performs the outbound request and settles with the server's answer, a
    non-success status surfacing as an error. *)
Definition authenticatedTransport (server : Request -> Completion JSValue)
  : Request -> JS JSValue :=
  fun req w =>
    match getItem (localStorage w) (js "access_token") with
    | None => (Throw AuthError, w)
    | Some _ =>
        (server req,
         {| localStorage := localStorage w;
            console := console w;
            network := network w ++ [req] |})
    end.

(** Modelled from the spec: [getAuthToken] comes from the same absent
    module; the session store adapter reads the token from durable client
    storage. *)
Definition storedAuthToken : JS (option jsstring) :=
  localStorage_getItem (js "access_token").

(* ================================================================== *)
(** * Vocabulary of the properties *)
(* ================================================================== *)

(** A production either fails or leaves strictly less input, and it does
    not run out of budget. *)
Definition consumes (res : PResult JSValue) (s : jsstring) : Prop :=
  res <> PFuel /\
  forall v r, res = POk v r -> List.length r < List.length s.

(** Every URL the endpoint resolver of [config/api.js] produces: the API
    base, the HTTP endpoint table and the WebSocket endpoint. *)
Definition resolved_urls (env : ImportMetaEnv) : list jsstring :=
  Api.API_BASE_URL env
    :: Api.endpoint_urls (Api.API_ENDPOINTS env)
    ++ [Api.adminDashboard (Api.WS_ENDPOINTS env)].

(** Both copies of [getAssetUrl] run the same body over their own base
    URL. *)
Definition assetUrlOver (base : jsstring) (path : option jsstring)
  : jsstring :=
  match path with
  | None => []
  | Some path =>
      if negb (truthy path) then []
      else if startsWith path (js "http://") || startsWith path (js "https://")
      then path
      else base ++ (if startsWith path (js "/") then path else js "/" ++ path)
  end.

(** The origin override is unset, empty, or begins with [http://] or
    [https://]. *)
Definition httpOrEmptyOrigin (env : ImportMetaEnv) : bool :=
  match VITE_API_URL env with
  | None => true
  | Some u =>
      negb (truthy u)
      || startsWith u (js "http://") || startsWith u (js "https://")
  end.

(** The elevated-privilege condition in the words of the specification:
    the profile's [isAdmin] member is the boolean [true], or its [role]
    member is the string [admin]. *)
Definition hasElevatedPrivilege (profile : list (jsstring * JSValue)) : Prop :=
  lookup_member (js "isAdmin") profile = Some (JBool true) \/
  lookup_member (js "role") profile = Some (JString (js "admin")).

(** A world whose session store holds the given token and profile text,
    with nothing logged and nothing sent. *)
Definition session (token user : option jsstring) : World := {|
  localStorage :=
    match token with Some t => [(js "access_token", t)] | None => [] end
    ++ match user with Some u => [(js "user", u)] | None => [] end;
  console := [];
  network := []
|}.

(** The world after [console.error(msg, e)]. *)
Definition logged (msg : jsstring) (e : Exn) (w : World) : World :=
  snd (console_error msg e w).

Definition unsetOrigin : ImportMetaEnv := {| VITE_API_URL := None |}.
Definition sameOrigin : ImportMetaEnv := {| VITE_API_URL := Some [] |}.
Definition remoteOrigin : ImportMetaEnv :=
  {| VITE_API_URL := Some (js "https://api.example.com") |}.
Definition protocolRelativeOrigin : ImportMetaEnv :=
  {| VITE_API_URL := Some (js "//cdn.example.com") |}.

(* ================================================================== *)
(** * Strings: basic facts *)
(* ================================================================== *)

Lemma jsstring_eqb_eq (a b : jsstring) : jsstring_eqb a b = true <-> a = b.
Proof.
  revert b; induction a as [|x a IH]; intros [|y b]; simpl;
    try (split; [discriminate | congruence]); try tauto.
  rewrite andb_true_iff, N.eqb_eq, IH.
  split; [intros [-> ->]; reflexivity | intros H; inversion H; auto].
Qed.

Lemma startsWith_app (s t p : jsstring) :
  startsWith s p = true -> startsWith (s ++ t) p = true.
Proof.
  revert s; induction p as [|c p IH]; intros s H; [reflexivity|].
  destruct s as [|d s]; simpl in *; [discriminate|].
  apply andb_true_iff in H as [Hd Hs].
  rewrite Hd, (IH _ Hs); reflexivity.
Qed.

Lemma skipn_length_le (n : nat) (s : jsstring) :
  List.length (skipn n s) <= List.length s.
Proof. rewrite length_skipn; lia. Qed.

(* ================================================================== *)
(** * JSON.parse: the recursion budget is never exhausted *)
(* ================================================================== *)

Lemma skip_ws_length (s : jsstring) :
  List.length (skip_ws s) <= List.length s.
Proof.
  induction s as [|c s IH]; simpl; [lia|].
  destruct (is_ws c); simpl; lia.
Qed.

Lemma skip_ws_cons_length (s r : jsstring) (c : N) :
  skip_ws s = c :: r -> List.length r < List.length s.
Proof.
  intros H. pose proof (skip_ws_length s) as L. rewrite H in L. simpl in L. lia.
Qed.

Lemma span_digits_length (s : jsstring) :
  List.length (snd (span_digits s)) <= List.length s.
Proof.
  induction s as [|c s IH]; simpl; [lia|].
  destruct (is_digit c); simpl; [|lia].
  destruct (span_digits s) as [d r]; simpl in *; lia.
Qed.

Lemma cons_char_some (c : N) (x : option (jsstring * jsstring))
      (str r : jsstring) :
  cons_char c x = Some (str, r) -> exists str', x = Some (str', r).
Proof.
  destruct x as [[str' r']|]; simpl; [|discriminate].
  intros H; inversion H; subst; eauto.
Qed.

Lemma parse_chars_length_aux (n : nat) :
  forall s str r,
    List.length s <= n ->
    parse_chars s = Some (str, r) -> List.length r < List.length s.
Proof.
  induction n as [|n IH]; intros s str r Hn H.
  - destruct s; simpl in *; [discriminate | lia].
  - destruct s as [|c s]; simpl in *; [discriminate|].
    destruct (c =? 34)%N.
    { inversion H; subst; lia. }
    destruct (c =? 92)%N.
    + destruct s as [|e s]; [discriminate|].
      destruct (e =? 117)%N.
      * destruct s as [|h1 [|h2 [|h3 [|h4 s]]]]; try discriminate.
        destruct (hex4 h1 h2 h3 h4); [|discriminate].
        apply cons_char_some in H as [str' H].
        apply IH in H; simpl in *; lia.
      * destruct (escape e); [|discriminate].
        apply cons_char_some in H as [str' H].
        apply IH in H; simpl in *; lia.
    + destruct (c <? 32)%N; [discriminate|].
      apply cons_char_some in H as [str' H].
      apply IH in H; simpl in *; lia.
Qed.

Lemma parse_chars_length (s str r : jsstring) :
  parse_chars s = Some (str, r) -> List.length r < List.length s.
Proof. apply (parse_chars_length_aux (List.length s)); lia. Qed.

Lemma parse_int_length (s lit r : jsstring) :
  parse_int s = Some (lit, r) -> List.length r < List.length s.
Proof.
  unfold parse_int.
  assert (G : forall s1 sign,
             List.length s1 <= List.length s ->
             match s1 with
             | [] => None
             | c :: s2 =>
                 if (c =? 48)%N then Some (sign ++ [c], s2)
                 else if is_digit c
                      then let (d, r0) := span_digits s2 in
                           Some (sign ++ c :: d, r0)
                      else None
             end = Some (lit, r) -> List.length r < List.length s).
  { intros [|c s2] sign L H; [discriminate|]. simpl in L.
    destruct (c =? 48)%N; [inversion H; subst; lia|].
    destruct (is_digit c); [|discriminate].
    pose proof (span_digits_length s2) as D.
    destruct (span_digits s2) as [d r0]; inversion H; subst; simpl in D; lia. }
  destruct s as [|c s']; [discriminate|].
  destruct (c =? 45)%N; intros H;
    [apply (G s' [c]) | apply (G (c :: s') [])]; (simpl; lia) || exact H.
Qed.

Lemma parse_frac_length (s lit r : jsstring) :
  parse_frac s = Some (lit, r) -> List.length r <= List.length s.
Proof.
  unfold parse_frac. destruct s as [|c s]; [intros H; inversion H; subst; lia|].
  destruct (c =? 46)%N; [|intros H; inversion H; subst; lia].
  pose proof (span_digits_length s) as D.
  destruct (span_digits s) as [[|d0 d] r0]; [discriminate|].
  intros H; inversion H; subst; simpl in *; lia.
Qed.

Lemma parse_exp_length (s lit r : jsstring) :
  parse_exp s = Some (lit, r) -> List.length r <= List.length s.
Proof.
  unfold parse_exp. destruct s as [|c s]; [intros H; inversion H; subst; lia|].
  destruct ((c =? 101)%N || (c =? 69)%N); [|intros H; inversion H; subst; lia].
  assert (G : forall sign s1,
             List.length s1 <= List.length s ->
             match span_digits s1 with
             | ([], _) => None
             | (d, r0) => Some (c :: sign ++ d, r0)
             end = Some (lit, r) -> List.length r <= List.length (c :: s)).
  { intros sign s1 L. pose proof (span_digits_length s1) as D.
    destruct (span_digits s1) as [[|d0 d] r0]; [discriminate|].
    intros H; inversion H; subst; simpl in *; lia. }
  destruct s as [|g s'']; [apply (G [] []); simpl; lia|].
  destruct ((g =? 43)%N || (g =? 45)%N);
    [apply (G [g] s'') | apply (G [] (g :: s''))]; simpl; lia.
Qed.

Lemma parse_number_length (s lit r : jsstring) :
  parse_number s = Some (lit, r) -> List.length r < List.length s.
Proof.
  unfold parse_number.
  destruct (parse_int s) as [[i r1]|] eqn:Hi; [|discriminate].
  destruct (parse_frac r1) as [[f r2]|] eqn:Hf; [|discriminate].
  destruct (parse_exp r2) as [[e r3]|] eqn:He; [|discriminate].
  intros H; inversion H; subst.
  apply parse_int_length in Hi. apply parse_frac_length in Hf.
  apply parse_exp_length in He. lia.
Qed.

Lemma consumes_syntax (s : jsstring) : consumes PSyntax s.
Proof. split; [discriminate | intros v r H; discriminate]. Qed.

Lemma consumes_ok (v : JSValue) (r s : jsstring) :
  List.length r < List.length s -> consumes (POk v r) s.
Proof.
  intros L; split; [discriminate|].
  intros v' r' H; inversion H; subst; exact L.
Qed.

Lemma consumes_weaken (res : PResult JSValue) (s t : jsstring) :
  consumes res s -> List.length s <= List.length t -> consumes res t.
Proof.
  intros [A B] L; split; [exact A|].
  intros v r H; apply B in H; lia.
Qed.

Lemma parse_fuel (f : nat) :
  (forall s, 2 * List.length s < f -> consumes (parse_value f s) s) /\
  (forall s acc, 2 * List.length s + 1 < f ->
                 consumes (parse_elements f s acc) s) /\
  (forall s acc, 2 * List.length s + 1 < f ->
                 consumes (parse_members f s acc) s).
Proof.
  induction f as [|f (IHv & IHe & IHm)].
  { repeat split; intros; lia. }
  split; [|split].
  - (* parse_value *)
    intros s L. cbn [parse_value parse_elements parse_members].
    destruct (skip_ws s) as [|c rest] eqn:Hs; [apply consumes_syntax|].
    apply skip_ws_cons_length in Hs.
    destruct (c =? 123)%N.
    { destruct (skip_ws rest) as [|d rest'] eqn:Hr; [apply consumes_syntax|].
      apply skip_ws_cons_length in Hr.
      destruct (d =? 125)%N; [apply consumes_ok; lia|].
      apply consumes_weaken with (s := rest); [apply IHm|]; lia. }
    destruct (c =? 91)%N.
    { destruct (skip_ws rest) as [|d rest'] eqn:Hr; [apply consumes_syntax|].
      apply skip_ws_cons_length in Hr.
      destruct (d =? 93)%N; [apply consumes_ok; lia|].
      apply consumes_weaken with (s := rest); [apply IHe|]; lia. }
    destruct (c =? 34)%N.
    { destruct (parse_chars rest) as [[str r]|] eqn:Hc;
        [|apply consumes_syntax].
      apply parse_chars_length in Hc. apply consumes_ok; lia. }
    destruct (startsWith (c :: rest) (js "true")).
    { pose proof (skipn_length_le 3 rest). apply consumes_ok; lia. }
    destruct (startsWith (c :: rest) (js "false")).
    { pose proof (skipn_length_le 4 rest). apply consumes_ok; lia. }
    destruct (startsWith (c :: rest) (js "null")).
    { pose proof (skipn_length_le 3 rest). apply consumes_ok; lia. }
    destruct (parse_number (c :: rest)) as [[lit r]|] eqn:Hn;
      [|apply consumes_syntax].
    apply parse_number_length in Hn. simpl in Hn. apply consumes_ok; lia.
  - (* parse_elements *)
    intros s acc L. cbn [parse_value parse_elements parse_members].
    destruct (IHv s ltac:(lia)) as [Hfuel Hlen].
    destruct (parse_value f s) as [v r| |] eqn:Hv;
      [|apply consumes_syntax|congruence].
    specialize (Hlen v r eq_refl).
    destruct (skip_ws r) as [|c r'] eqn:Hr; [apply consumes_syntax|].
    apply skip_ws_cons_length in Hr.
    destruct (c =? 44)%N.
    { apply consumes_weaken with (s := r'); [apply IHe|]; lia. }
    destruct (c =? 93)%N; [apply consumes_ok; lia|apply consumes_syntax].
  - (* parse_members *)
    intros s acc L. cbn [parse_value parse_elements parse_members].
    destruct (skip_ws s) as [|q r1] eqn:Hs; [apply consumes_syntax|].
    apply skip_ws_cons_length in Hs.
    destruct (q =? 34)%N; [|apply consumes_syntax].
    destruct (parse_chars r1) as [[key r2]|] eqn:Hk; [|apply consumes_syntax].
    apply parse_chars_length in Hk.
    destruct (skip_ws r2) as [|colon r3] eqn:Hr2; [apply consumes_syntax|].
    apply skip_ws_cons_length in Hr2.
    destruct (colon =? 58)%N; [|apply consumes_syntax].
    destruct (IHv r3 ltac:(lia)) as [Hfuel Hlen].
    destruct (parse_value f r3) as [v r4| |] eqn:Hv;
      [|apply consumes_syntax|congruence].
    specialize (Hlen v r4 eq_refl).
    destruct (skip_ws r4) as [|c r5] eqn:Hr4; [apply consumes_syntax|].
    apply skip_ws_cons_length in Hr4.
    destruct (c =? 44)%N.
    { apply consumes_weaken with (s := r5); [apply IHm|]; lia. }
    destruct (c =? 125)%N; [apply consumes_ok; lia|apply consumes_syntax].
Qed.

(** The budget [JSON_parse] grants is enough for every text. *)
Lemma parse_value_fuel (text : jsstring) :
  parse_value (S (2 * List.length text)) text <> PFuel.
Proof.
  destruct (parse_fuel (S (2 * List.length text))) as [Hv _].
  apply Hv. lia.
Qed.

(** [JSON.parse] either yields a value or throws a [SyntaxError]. *)
Lemma JSON_parse_total (text : jsstring) :
  (exists v, JSON_parse text = Normal v) \/ JSON_parse text = Throw SyntaxError.
Proof.
  unfold JSON_parse. pose proof (parse_value_fuel text) as F.
  destruct (parse_value (S (2 * List.length text)) text) as [v r| |];
    [|right; reflexivity|congruence].
  destruct (skip_ws r); [left; eauto | right; reflexivity].
Qed.

(* ================================================================== *)
(** * Endpoint resolution *)
(* ================================================================== *)

(** C1, as stated, fails on [config/api.js]: with the override unset the
    origin its endpoint table is built on is the empty string, not the
    local-development default. *)
Lemma unset_origin_api_root_not_default :
  ~ (Api.API_ROOT unsetOrigin = LOCAL_DEV_ORIGIN /\
     Api.getWebSocketUrl unsetOrigin = replace_http_ws LOCAL_DEV_ORIGIN).
Proof. intros [H _]. vm_compute in H. discriminate H. Qed.

(** C1 (amended): with the origin override unset, the base URL of both
    copies of [api.config] is the local-development default
    [http://localhost:8000] and the WebSocket origin is that default with
    [http] replaced by [ws]; the endpoint table of [config/api.js] is built
    on the empty origin, so its entries are same-origin paths. *)
Theorem unset_origin_resolution (env : ImportMetaEnv)
        (Hunset : VITE_API_URL env = None) :
  ApiConfig.API_BASE_URL env = js "http://localhost:8000" /\
  ApiConfigFallback.API_BASE_URL env = js "http://localhost:8000" /\
  Api.getWebSocketUrl env = replace_http_ws (js "http://localhost:8000") /\
  Api.getWebSocketUrl env = js "ws://localhost:8000" /\
  Api.API_ROOT env = [] /\
  Api.auth (Api.API_ENDPOINTS env) = js "/api/auth" /\
  forallb isOriginRelative (Api.endpoint_urls (Api.API_ENDPOINTS env)) = true.
Proof.
  unfold ApiConfig.API_BASE_URL, ApiConfig.envApiUrl,
    ApiConfigFallback.API_BASE_URL, Api.getWebSocketUrl, Api.API_ENDPOINTS,
    Api.API_ROOT.
  rewrite Hunset. repeat split; reflexivity.
Qed.

Lemma unset_origin_resolution_witness :
  ApiConfig.API_BASE_URL unsetOrigin = js "http://localhost:8000" /\
  Api.getWebSocketUrl unsetOrigin = js "ws://localhost:8000" /\
  Api.API_ROOT unsetOrigin = [].
Proof.
  destruct (unset_origin_resolution unsetOrigin eq_refl)
    as (H1 & _ & _ & H4 & H5 & _ & _).
  exact (conj H1 (conj H4 H5)).
Defined.

(** C3, as stated, fails: with the empty override the WebSocket endpoint is
    an absolute [ws://localhost:8000] URL. *)
Lemma same_origin_ws_not_relative :
  ~ (forallb isOriginRelative (resolved_urls sameOrigin) = true).
Proof. vm_compute. discriminate. Qed.

(** C3 (amended): with the empty origin override, the API base and every
    entry of the HTTP endpoint table are origin-relative paths, while the
    WebSocket endpoint is built on the local-development default and reads
    [ws://localhost:8000/api/admin/ws/dashboard]. *)
Theorem same_origin_resolution (env : ImportMetaEnv)
        (Hempty : VITE_API_URL env = Some []) :
  forallb isOriginRelative
          (Api.API_BASE_URL env :: Api.endpoint_urls (Api.API_ENDPOINTS env))
  = true /\
  Api.adminDashboard (Api.WS_ENDPOINTS env)
  = js "ws://localhost:8000/api/admin/ws/dashboard".
Proof.
  unfold Api.API_BASE_URL, Api.WS_ENDPOINTS, Api.getWebSocketUrl,
    Api.API_ENDPOINTS, Api.API_ROOT.
  rewrite Hempty. split; reflexivity.
Qed.

Lemma same_origin_resolution_witness :
  forallb isOriginRelative
          (Api.API_BASE_URL sameOrigin
             :: Api.endpoint_urls (Api.API_ENDPOINTS sameOrigin))
  = true /\
  Api.adminDashboard (Api.WS_ENDPOINTS sameOrigin)
  = js "ws://localhost:8000/api/admin/ws/dashboard".
Proof. exact (same_origin_resolution sameOrigin eq_refl). Defined.

(** C8: with the origin override [https://api.example.com] the admin
    dashboard WebSocket endpoint is
    [wss://api.example.com/api/admin/ws/dashboard]: the leading [http] of
    the configured origin is replaced by [ws]. *)
Theorem remote_origin_ws_endpoint :
  let env := {| VITE_API_URL := Some (js "https://api.example.com") |} in
  Api.adminDashboard (Api.WS_ENDPOINTS env)
  = js "wss://api.example.com/api/admin/ws/dashboard" /\
  Api.getWebSocketUrl env = js "ws" ++ skipn 4 (js "https://api.example.com").
Proof. split; reflexivity. Qed.

(* ================================================================== *)
(** * Asset URLs *)
(* ================================================================== *)

Lemma getAssetUrl_over (env : ImportMetaEnv) (path : option jsstring) :
  ApiConfig.getAssetUrl env path
  = assetUrlOver (ApiConfig.API_BASE_URL env) path.
Proof. reflexivity. Qed.

Lemma getAssetUrl_fallback_over (env : ImportMetaEnv) (path : option jsstring) :
  ApiConfigFallback.getAssetUrl env path
  = assetUrlOver (ApiConfigFallback.API_BASE_URL env) path.
Proof. reflexivity. Qed.

Lemma absolute_truthy (x : jsstring) :
  startsWith x (js "http://") || startsWith x (js "https://") = true ->
  truthy x = true.
Proof. destruct x; [discriminate | reflexivity]. Qed.

Lemma assetUrlOver_absolute (base x : jsstring) :
  startsWith x (js "http://") || startsWith x (js "https://") = true ->
  assetUrlOver base (Some x) = x.
Proof.
  intros H. unfold assetUrlOver.
  rewrite (absolute_truthy x H), H. reflexivity.
Qed.

(** A path that begins with a slash is sent to itself by the empty base. *)
Lemma assetUrlOver_empty_base_slash (x : jsstring) :
  startsWith x (js "/") = true -> assetUrlOver [] (Some x) = x.
Proof.
  intros H. unfold assetUrlOver.
  destruct x as [|c x]; [discriminate|].
  simpl in H. apply andb_true_iff in H as [Hc _]. apply N.eqb_eq in Hc.
  subst c. reflexivity.
Qed.

Lemma normalized_starts_with_slash (x : jsstring) :
  startsWith (if startsWith x (js "/") then x else js "/" ++ x) (js "/")
  = true.
Proof. destruct (startsWith x (js "/")) eqn:H; [exact H | reflexivity]. Qed.

(** The strings [assetUrlOver base] leaves alone. *)
Lemma assetUrlOver_fixed (base z : jsstring) :
  z = [] \/
  startsWith z (js "http://") || startsWith z (js "https://") = true \/
  (base = [] /\ startsWith z (js "/") = true) ->
  assetUrlOver base (Some z) = z.
Proof.
  intros [-> | [H | [-> H]]].
  - reflexivity.
  - apply assetUrlOver_absolute; exact H.
  - apply assetUrlOver_empty_base_slash; exact H.
Qed.

Lemma assetUrlOver_idempotent (base x : jsstring) :
  base = [] \/
  startsWith base (js "http://") || startsWith base (js "https://") = true ->
  assetUrlOver base (Some (assetUrlOver base (Some x)))
  = assetUrlOver base (Some x).
Proof.
  intros Hbase. apply assetUrlOver_fixed.
  unfold assetUrlOver.
  destruct (truthy x); simpl negb; cbv iota; [|left; reflexivity].
  destruct (startsWith x (js "http://") || startsWith x (js "https://"))
    eqn:Habs; [right; left; exact Habs|].
  right. destruct Hbase as [-> | Hbase].
  - right. split; [reflexivity | apply normalized_starts_with_slash].
  - left. apply orb_true_iff in Hbase as [H | H];
      rewrite (startsWith_app _ _ _ H); [reflexivity | apply orb_true_r].
Qed.

Lemma httpOrEmptyOrigin_base (env : ImportMetaEnv) :
  httpOrEmptyOrigin env = true ->
  ApiConfig.API_BASE_URL env = [] \/
  startsWith (ApiConfig.API_BASE_URL env) (js "http://")
  || startsWith (ApiConfig.API_BASE_URL env) (js "https://") = true.
Proof.
  unfold httpOrEmptyOrigin, ApiConfig.API_BASE_URL, ApiConfig.envApiUrl.
  destruct (VITE_API_URL env) as [u|]; [|intros _; right; reflexivity].
  destruct u as [|c u]; [intros _; left; reflexivity|].
  simpl negb. rewrite orb_false_l. intros H; right; exact H.
Qed.

Lemma httpOrEmptyOrigin_fallback_base (env : ImportMetaEnv) :
  httpOrEmptyOrigin env = true ->
  startsWith (ApiConfigFallback.API_BASE_URL env) (js "http://")
  || startsWith (ApiConfigFallback.API_BASE_URL env) (js "https://") = true.
Proof.
  unfold httpOrEmptyOrigin, ApiConfigFallback.API_BASE_URL, or_else.
  destruct (VITE_API_URL env) as [u|]; [|intros _; reflexivity].
  destruct u as [|c u]; [intros _; reflexivity|].
  simpl negb. rewrite orb_false_l. intros H; exact H.
Qed.

(** C4, as stated, fails: under the protocol-relative origin
    [//cdn.example.com] a second application to [a.png] prefixes the
    origin again. *)
Lemma getAssetUrl_not_idempotent :
  ~ (forall (env : ImportMetaEnv) (x : jsstring),
        ApiConfig.getAssetUrl env (Some (ApiConfig.getAssetUrl env (Some x)))
        = ApiConfig.getAssetUrl env (Some x)).
Proof.
  intros H.
  specialize (H {| VITE_API_URL := Some (js "//cdn.example.com") |}
                (js "a.png")).
  apply (f_equal (@List.length N)) in H. vm_compute in H. discriminate H.
Qed.

(** C4 (amended): for every deployment configuration whose origin override
    is unset, empty, or begins with [http://] or [https://], and for every
    string [x], [getAssetUrl (getAssetUrl x) = getAssetUrl x], in both
    copies of [api.config]. *)
Theorem getAssetUrl_idempotent (env : ImportMetaEnv) (x : jsstring)
        (Horigin : httpOrEmptyOrigin env = true) :
  ApiConfig.getAssetUrl env (Some (ApiConfig.getAssetUrl env (Some x)))
  = ApiConfig.getAssetUrl env (Some x) /\
  ApiConfigFallback.getAssetUrl env
    (Some (ApiConfigFallback.getAssetUrl env (Some x)))
  = ApiConfigFallback.getAssetUrl env (Some x).
Proof.
  rewrite !getAssetUrl_over, !getAssetUrl_fallback_over. split.
  - apply assetUrlOver_idempotent, httpOrEmptyOrigin_base, Horigin.
  - apply assetUrlOver_idempotent. right.
    apply httpOrEmptyOrigin_fallback_base, Horigin.
Qed.

Lemma getAssetUrl_idempotent_witness :
  httpOrEmptyOrigin sameOrigin = true /\
  ApiConfig.getAssetUrl sameOrigin
    (Some (ApiConfig.getAssetUrl sameOrigin (Some (js "uploads/a.png"))))
  = ApiConfig.getAssetUrl sameOrigin (Some (js "uploads/a.png")).
Proof.
  split; [reflexivity|].
  exact (proj1 (getAssetUrl_idempotent sameOrigin (js "uploads/a.png")
                                       eq_refl)).
Defined.

(** C9: [getAssetUrl] maps the empty string to the empty string, and maps
    every input that starts with [http://] or [https://] to itself, under
    every deployment configuration and in both copies of [api.config]. *)
Theorem getAssetUrl_empty_and_absolute (env : ImportMetaEnv) (x : jsstring)
        (Habs : startsWith x (js "http://") = true \/
                startsWith x (js "https://") = true) :
  ApiConfig.getAssetUrl env (Some []) = [] /\
  ApiConfigFallback.getAssetUrl env (Some []) = [] /\
  ApiConfig.getAssetUrl env (Some x) = x /\
  ApiConfigFallback.getAssetUrl env (Some x) = x.
Proof.
  assert (H : startsWith x (js "http://") || startsWith x (js "https://")
              = true) by (apply orb_true_iff; exact Habs).
  rewrite !getAssetUrl_over, !getAssetUrl_fallback_over.
  repeat split; try reflexivity; apply assetUrlOver_absolute; exact H.
Qed.

Lemma getAssetUrl_empty_and_absolute_witness :
  ApiConfig.getAssetUrl remoteOrigin (Some []) = [] /\
  ApiConfig.getAssetUrl remoteOrigin (Some (js "https://cdn/x.png"))
  = js "https://cdn/x.png".
Proof.
  destruct (getAssetUrl_empty_and_absolute
              remoteOrigin (js "https://cdn/x.png")
              (or_intror eq_refl)) as (H1 & _ & H3 & _).
  exact (conj H1 H3).
Defined.

(* ================================================================== *)
(** * The access guard *)
(* ================================================================== *)

Lemma truthy_nonempty (s : jsstring) : s <> [] -> truthy s = true.
Proof. destruct s; [congruence | reflexivity]. Qed.

Section Guard.
Context {E : Type}.
Variable element : E.
Variable w : World.

(** Without a truthy token and a truthy profile text the guard redirects to
    the login page, whatever the route asks for. *)
Lemma ProtectedRoute_no_session (isAdmin : bool) :
  truthy_opt (getItem (localStorage w) (js "access_token")) = false \/
  truthy_opt (getItem (localStorage w) (js "user")) = false ->
  ProtectedRoute element isAdmin w = (Normal (Navigate (js "/login") true), w).
Proof.
  intros H. unfold ProtectedRoute, bind, localStorage_getItem.
  destruct H as [-> | ->]; [reflexivity|].
  rewrite orb_true_r. reflexivity.
Qed.

(** A route that does not ask for an admin never reads the profile text. *)
Lemma ProtectedRoute_session (t u : jsstring) :
  getItem (localStorage w) (js "access_token") = Some t -> t <> [] ->
  getItem (localStorage w) (js "user") = Some u -> u <> [] ->
  ProtectedRoute element false w = (Normal (Element element), w).
Proof.
  intros Ht Hnt Hu Hnu. unfold ProtectedRoute, bind, localStorage_getItem.
  rewrite Ht, Hu. unfold truthy_opt.
  rewrite (truthy_nonempty t Hnt), (truthy_nonempty u Hnu). reflexivity.
Qed.

(** On an admin route the outcome is decided by the [try] block. *)
Lemma ProtectedRoute_admin (t u : jsstring) :
  getItem (localStorage w) (js "access_token") = Some t -> t <> [] ->
  getItem (localStorage w) (js "user") = Some u -> u <> [] ->
  ProtectedRoute element true w
  = match JSON_parse u with
    | Throw e =>
        (Normal (Navigate (js "/login") true),
         logged (js "Error parsing user data:") e w)
    | Normal userData =>
        match isUserAdmin_of userData w with
        | (Normal true, w') => (Normal (Element element), w')
        | (Normal false, w') => (Normal (Navigate (js "/dashboard") true), w')
        | (Throw e, w') =>
            (Normal (Navigate (js "/login") true),
             logged (js "Error parsing user data:") e w')
        end
    end.
Proof.
  intros Ht Hnt Hu Hnu.
  unfold ProtectedRoute, bind, try_catch, lift, localStorage_getItem, logged.
  rewrite Ht, Hu. unfold truthy_opt.
  rewrite (truthy_nonempty t Hnt), (truthy_nonempty u Hnu). simpl.
  destruct (JSON_parse u) as [userData|e]; [|reflexivity].
  destruct (isUserAdmin_of userData w) as [[[|]|e] w']; reflexivity.
Qed.

Lemma isUserAdmin_of_object (ms : list (jsstring * JSValue)) :
  isUserAdmin_of (JObject ms) w
  = (Normal (strict_eq_true (lookup_member (js "isAdmin") ms)
             || strict_eq_string (lookup_member (js "role") ms) (js "admin")),
     w).
Proof.
  unfold isUserAdmin_of, bind, getProp, ret.
  destruct (strict_eq_true (lookup_member (js "isAdmin") ms)); reflexivity.
Qed.

Lemma isUserAdmin_of_null : isUserAdmin_of JNull w = (Throw TypeError, w).
Proof. reflexivity. Qed.

End Guard.

Lemma strict_eq_true_iff (v : option JSValue) :
  strict_eq_true v = true <-> v = Some (JBool true).
Proof.
  destruct v as [[| [|] | | | |]|]; simpl; split;
    congruence || reflexivity.
Qed.

Lemma strict_eq_string_iff (v : option JSValue) (s : jsstring) :
  strict_eq_string v s = true <-> v = Some (JString s).
Proof.
  destruct v as [[| | |x| |]|]; simpl; try (split; congruence).
  rewrite jsstring_eqb_eq. split; congruence.
Qed.

Lemma elevated_iff (ms : list (jsstring * JSValue)) :
  strict_eq_true (lookup_member (js "isAdmin") ms)
  || strict_eq_string (lookup_member (js "role") ms) (js "admin") = true
  <-> hasElevatedPrivilege ms.
Proof.
  unfold hasElevatedPrivilege.
  rewrite orb_true_iff, strict_eq_true_iff, strict_eq_string_iff. tauto.
Qed.

(** On an admin route the profile text [null] parses, but reading a
    property of [null] throws, and the guard redirects to the login page. *)
Lemma ProtectedRoute_admin_null_profile :
  let w := session (Some (js "t")) (Some (js "null")) in
  ProtectedRoute tt true w
  = (Normal (Navigate (js "/login") true),
     logged (js "Error parsing user data:") TypeError w).
Proof. reflexivity. Qed.

(** On an admin route, a profile that parses to an object is admitted
    exactly when it is elevated; otherwise it is sent to the dashboard. *)
Lemma ProtectedRoute_admin_object
      {E : Type} (element : E) (w : World) (t u : jsstring)
      (ms : list (jsstring * JSValue)) :
  getItem (localStorage w) (js "access_token") = Some t -> t <> [] ->
  getItem (localStorage w) (js "user") = Some u -> u <> [] ->
  JSON_parse u = Normal (JObject ms) ->
  (hasElevatedPrivilege ms ->
   ProtectedRoute element true w = (Normal (Element element), w)) /\
  (~ hasElevatedPrivilege ms ->
   ProtectedRoute element true w
   = (Normal (Navigate (js "/dashboard") true), w)).
Proof.
  intros Ht Hnt Hu Hnu Hparse.
  rewrite (ProtectedRoute_admin element w t u Ht Hnt Hu Hnu), Hparse,
    isUserAdmin_of_object.
  pose proof (elevated_iff ms) as Hel.
  destruct (strict_eq_true (lookup_member (js "isAdmin") ms)
            || strict_eq_string (lookup_member (js "role") ms) (js "admin")).
  - split; [reflexivity | intros Hn; exfalso; apply Hn, Hel; reflexivity].
  - split; [intros H; apply Hel in H; discriminate H | reflexivity].
Qed.

(** C6: a principal whose token is null or absent is redirected to the
    login page whatever the stored profile is (a valid admin profile
    included), for required privilege AUTHENTICATED and ADMIN alike. *)
Theorem null_token_redirects_to_login
        {E : Type} (element : E) (required : Privilege) (w : World)
        (Hnull : getItem (localStorage w) (js "access_token") = None) :
  ProtectedRoute element (isAdmin_prop required) w
  = (Normal (Navigate (js "/login") true), w).
Proof.
  apply ProtectedRoute_no_session. left. rewrite Hnull. reflexivity.
Qed.

Lemma null_token_redirects_to_login_witness :
  let w := session None (Some (json_text "{'isAdmin':true,'role':'admin'}")) in
  JSON_parse (json_text "{'isAdmin':true,'role':'admin'}")
  = Normal (JObject [(js "isAdmin", JBool true);
                     (js "role", JString (js "admin"))]) /\
  ProtectedRoute tt (isAdmin_prop ADMIN) w
  = (Normal (Navigate (js "/login") true), w) /\
  ProtectedRoute tt (isAdmin_prop AUTHENTICATED) w
  = (Normal (Navigate (js "/login") true), w).
Proof.
  intros w. split; [reflexivity|]. split.
  - exact (null_token_redirects_to_login tt ADMIN w eq_refl).
  - exact (null_token_redirects_to_login tt AUTHENTICATED w eq_refl).
Defined.

(** C2, as stated, fails: with token [t] and the profile text [{not json]
    a route that asks only for a session renders the protected element. *)
Lemma malformed_profile_passes_session_route :
  let w := session (Some (js "t")) (Some (js "{not json")) in
  JSON_parse (js "{not json") = Throw SyntaxError /\
  ProtectedRoute tt (isAdmin_prop AUTHENTICATED) w = (Normal (Element tt), w) /\
  ~ (fst (ProtectedRoute tt (isAdmin_prop AUTHENTICATED) w)
     = Normal (Navigate (js "/login") true)).
Proof.
  intros w. split; [reflexivity|]. split; [reflexivity|].
  vm_compute. discriminate.
Qed.

(** C2 (amended): for every principal whose token is a non-empty string and
    whose stored profile is a non-empty string that is not valid JSON, the
    guard with required privilege ADMIN redirects to the login page (and
    logs the parse error); with required privilege AUTHENTICATED the
    profile is not parsed and the protected element is rendered. *)
Theorem malformed_profile_guard
        {E : Type} (element : E) (w : World) (t u : jsstring)
        (Htoken : getItem (localStorage w) (js "access_token") = Some t)
        (Ht : t <> [])
        (Huser : getItem (localStorage w) (js "user") = Some u)
        (Hu : u <> [])
        (Hmalformed : JSON_parse u = Throw SyntaxError) :
  ProtectedRoute element (isAdmin_prop ADMIN) w
  = (Normal (Navigate (js "/login") true),
     logged (js "Error parsing user data:") SyntaxError w) /\
  ProtectedRoute element (isAdmin_prop AUTHENTICATED) w
  = (Normal (Element element), w).
Proof.
  split.
  - simpl isAdmin_prop.
    rewrite (ProtectedRoute_admin element w t u Htoken Ht Huser Hu), Hmalformed.
    reflexivity.
  - exact (ProtectedRoute_session element w t u Htoken Ht Huser Hu).
Qed.

Lemma malformed_profile_guard_witness :
  let w := session (Some (js "t")) (Some (js "{not json")) in
  ProtectedRoute tt (isAdmin_prop ADMIN) w
  = (Normal (Navigate (js "/login") true),
     logged (js "Error parsing user data:") SyntaxError w) /\
  ProtectedRoute tt (isAdmin_prop AUTHENTICATED) w = (Normal (Element tt), w).
Proof.
  intros w.
  refine (@malformed_profile_guard unit tt w (js "t") (js "{not json")
            eq_refl _ eq_refl _ eq_refl); discriminate.
Defined.

(** C7: for every principal with a non-empty token and a well-formed
    profile, the guard with required privilege ADMIN renders the protected
    element when the profile's role is [admin], and redirects to the
    dashboard when the role is [user] and the principal is not elevated. *)
Theorem admin_route_by_role
        {E : Type} (element : E) (w : World) (t u : jsstring)
        (profile : list (jsstring * JSValue))
        (Htoken : getItem (localStorage w) (js "access_token") = Some t)
        (Ht : t <> [])
        (Huser : getItem (localStorage w) (js "user") = Some u)
        (Hu : u <> [])
        (Hparse : JSON_parse u = Normal (JObject profile)) :
  (lookup_member (js "role") profile = Some (JString (js "admin")) ->
   ProtectedRoute element (isAdmin_prop ADMIN) w
   = (Normal (Element element), w)) /\
  (lookup_member (js "role") profile = Some (JString (js "user")) ->
   lookup_member (js "isAdmin") profile <> Some (JBool true) ->
   ProtectedRoute element (isAdmin_prop ADMIN) w
   = (Normal (Navigate (js "/dashboard") true), w)).
Proof.
  destruct (ProtectedRoute_admin_object element w t u profile
              Htoken Ht Huser Hu Hparse)
    as [Hyes Hno].
  split.
  - intros Hrole. apply Hyes. right. exact Hrole.
  - intros Hrole Hflag. apply Hno. intros [Hf | Hr]; [exact (Hflag Hf)|].
    rewrite Hrole in Hr. inversion Hr.
Qed.

Lemma admin_route_by_role_witness :
  ProtectedRoute tt (isAdmin_prop ADMIN)
                 (session (Some (js "t")) (Some (json_text "{'role':'admin'}")))
  = (Normal (Element tt),
     session (Some (js "t")) (Some (json_text "{'role':'admin'}"))) /\
  ProtectedRoute tt (isAdmin_prop ADMIN)
                 (session (Some (js "t")) (Some (json_text "{'role':'user'}")))
  = (Normal (Navigate (js "/dashboard") true),
     session (Some (js "t")) (Some (json_text "{'role':'user'}"))).
Proof.
  split.
  - refine (proj1 (@admin_route_by_role unit tt
                     (session (Some (js "t"))
                              (Some (json_text "{'role':'admin'}")))
                     (js "t") (json_text "{'role':'admin'}")
                     [(js "role", JString (js "admin"))]
                     eq_refl _ eq_refl _ eq_refl) eq_refl); discriminate.
  - refine (proj2 (@admin_route_by_role unit tt
                     (session (Some (js "t"))
                              (Some (json_text "{'role':'user'}")))
                     (js "t") (json_text "{'role':'user'}")
                     [(js "role", JString (js "user"))]
                     eq_refl _ eq_refl _ eq_refl) eq_refl _); discriminate.
Defined.

(** C10: for every authenticated principal with a well-formed profile, the
    guard with required privilege ADMIN renders the protected element
    exactly when the profile's [isAdmin] member is the boolean [true] or
    its [role] member is the string [admin], and otherwise redirects to
    the dashboard.  So a profile whose [isAdmin] is [false] or absent but
    whose role is [admin] is admitted, and a profile whose [isAdmin] is a
    string or a number and whose role is not [admin] is sent to the
    dashboard. *)
Theorem admin_route_elevation
        {E : Type} (element : E) (w : World) (t u : jsstring)
        (profile : list (jsstring * JSValue))
        (Htoken : getItem (localStorage w) (js "access_token") = Some t)
        (Ht : t <> [])
        (Huser : getItem (localStorage w) (js "user") = Some u)
        (Hu : u <> [])
        (Hparse : JSON_parse u = Normal (JObject profile)) :
  (hasElevatedPrivilege profile <->
   ProtectedRoute element (isAdmin_prop ADMIN) w
   = (Normal (Element element), w)) /\
  (~ hasElevatedPrivilege profile <->
   ProtectedRoute element (isAdmin_prop ADMIN) w
   = (Normal (Navigate (js "/dashboard") true), w)) /\
  (lookup_member (js "isAdmin") profile <> Some (JBool true) ->
   lookup_member (js "role") profile = Some (JString (js "admin")) ->
   ProtectedRoute element (isAdmin_prop ADMIN) w
   = (Normal (Element element), w)) /\
  (forall x s,
      lookup_member (js "isAdmin") profile = Some (JString x) \/
      lookup_member (js "isAdmin") profile = Some (JNumber x) ->
      lookup_member (js "role") profile = Some (JString s) ->
      s <> js "admin" ->
      ProtectedRoute element (isAdmin_prop ADMIN) w
      = (Normal (Navigate (js "/dashboard") true), w)).
Proof.
  destruct (ProtectedRoute_admin_object element w t u profile
              Htoken Ht Huser Hu Hparse)
    as [Hyes Hno].
  assert (Hdec : hasElevatedPrivilege profile \/
                 ~ hasElevatedPrivilege profile).
  { destruct (strict_eq_true (lookup_member (js "isAdmin") profile)
              || strict_eq_string (lookup_member (js "role") profile)
                                  (js "admin")) eqn:B.
    - left. apply elevated_iff. exact B.
    - right. intros H. apply elevated_iff in H. congruence. }
  simpl isAdmin_prop. repeat split.
  - exact Hyes.
  - intros Hrun. destruct Hdec as [H | H]; [exact H|].
    rewrite (Hno H) in Hrun. discriminate Hrun.
  - exact Hno.
  - intros Hrun H. rewrite (Hyes H) in Hrun. discriminate Hrun.
  - intros _ Hrole. apply Hyes. right. exact Hrole.
  - intros x s Hflag Hrole Hs. apply Hno. intros [Hf | Hr].
    + destruct Hflag as [Hx | Hx]; rewrite Hx in Hf; discriminate Hf.
    + rewrite Hrole in Hr. inversion Hr. congruence.
Qed.

Lemma admin_route_elevation_witness :
  let admitted := json_text "{'isAdmin':false,'role':'admin'}" in
  let stringly := json_text "{'isAdmin':'true','role':'user'}" in
  let numeric := json_text "{'isAdmin':1,'role':'user'}" in
  ProtectedRoute tt (isAdmin_prop ADMIN)
                 (session (Some (js "t")) (Some admitted))
  = (Normal (Element tt), session (Some (js "t")) (Some admitted)) /\
  ProtectedRoute tt (isAdmin_prop ADMIN)
                 (session (Some (js "t")) (Some stringly))
  = (Normal (Navigate (js "/dashboard") true),
     session (Some (js "t")) (Some stringly)) /\
  ProtectedRoute tt (isAdmin_prop ADMIN)
                 (session (Some (js "t")) (Some numeric))
  = (Normal (Navigate (js "/dashboard") true),
     session (Some (js "t")) (Some numeric)).
Proof.
  intros admitted stringly numeric. split; [|split].
  - refine (proj1 (proj2 (proj2
              (@admin_route_elevation unit tt
                 (session (Some (js "t")) (Some admitted))
                 (js "t") admitted
                 [(js "isAdmin", JBool false);
                  (js "role", JString (js "admin"))]
                 eq_refl _ eq_refl _ eq_refl))) _ eq_refl); discriminate.
  - refine (proj2 (proj2 (proj2
              (@admin_route_elevation unit tt
                 (session (Some (js "t")) (Some stringly))
                 (js "t") stringly
                 [(js "isAdmin", JString (js "true"));
                  (js "role", JString (js "user"))]
                 eq_refl _ eq_refl _ eq_refl)))
              (js "true") (js "user") (or_introl eq_refl) eq_refl _);
      discriminate.
  - refine (proj2 (proj2 (proj2
              (@admin_route_elevation unit tt
                 (session (Some (js "t")) (Some numeric))
                 (js "t") numeric
                 [(js "isAdmin", JNumber (js "1"));
                  (js "role", JString (js "user"))]
                 eq_refl _ eq_refl _ eq_refl)))
              (js "1") (js "user") (or_intror eq_refl) eq_refl _);
      discriminate.
Defined.

(* ================================================================== *)
(** * The application aggregator *)
(* ================================================================== *)

(** Whatever the token reader yields, [getUserApplications] hands one
    request to the transport and passes its outcome on, logging a failure
    before rethrowing it. *)
Lemma getUserApplications_run
      (env : ImportMetaEnv) (apiRequest : Request -> JS JSValue)
      (getAuthToken : JS (option jsstring)) (w : World)
      (token : option jsstring) :
  getAuthToken w = (Normal token, w) ->
  DashboardApi.getUserApplications env apiRequest getAuthToken w
  = match apiRequest (DashboardApi.applications_request env token) w with
    | (Normal response, w') => (Normal response, w')
    | (Throw error, w') =>
        (Throw error, logged (js "Error fetching user applications:") error w')
    end.
Proof.
  intros Htok.
  unfold DashboardApi.getUserApplications, try_catch, bind, logged.
  rewrite Htok.
  destruct (apiRequest (DashboardApi.applications_request env token) w)
    as [[r|e] w']; reflexivity.
Qed.



(** X22: [getUserApplications] makes no token check of its own.  When the
    token reader returns null it hands the transport exactly the GET
    request for the dashboard's [/applications] path with the header
    [Authorization: Bearer null], and it completes or fails exactly as the
    transport does on that request (a failure is logged and rethrown). *)
Theorem null_token_request_forwarded
        (env : ImportMetaEnv) (apiRequest : Request -> JS JSValue)
        (getAuthToken : JS (option jsstring)) (w : World)
        (Hnull : getAuthToken w = (Normal None, w)) :
  DashboardApi.getUserApplications env apiRequest getAuthToken w
  = match apiRequest (DashboardApi.applications_request env None) w with
    | (Normal response, w') => (Normal response, w')
    | (Throw error, w') =>
        (Throw error, logged (js "Error fetching user applications:") error w')
    end /\
  DashboardApi.applications_request env None
  = {| url := Api.dashboard (Api.API_ENDPOINTS env) ++ js "/applications";
       method := js "GET";
       headers := [ (js "Authorization", js "Bearer null");
                    (js "Content-Type", js "application/json") ] |}.
Proof.
  split; [apply getUserApplications_run; exact Hnull | reflexivity].
Qed.

Lemma null_token_request_forwarded_witness :
  let w := session None None in
  DashboardApi.getUserApplications
    sameOrigin (fun req => throw (HTTPError 401)) storedAuthToken w
  = (Throw (HTTPError 401),
     logged (js "Error fetching user applications:") (HTTPError 401) w).
Proof.
  intros w.
  exact (proj1 (@null_token_request_forwarded
                  sameOrigin (fun req => throw (HTTPError 401))
                  storedAuthToken w eq_refl)).
Defined.

(* ================================================================== *)
(** * Further properties: endpoint resolution *)
(* ================================================================== *)

Lemma startsWith_self_app (p t : jsstring) : startsWith (p ++ t) p = true.
Proof.
  induction p as [|c p IH]; [reflexivity|].
  simpl. rewrite N.eqb_refl, IH. reflexivity.
Qed.

Lemma replace_http_ws_not_http (s : jsstring) :
  startsWith (replace_http_ws s) (js "http") = false.
Proof.
  unfold replace_http_ws.
  destruct (startsWith s (js "http")) eqn:H; [reflexivity | exact H].
Qed.

(** A non-empty origin followed by a path: the scheme swap only looks at
    the origin. *)
Lemma replace_http_ws_app_path (s t : jsstring) :
  s <> [] -> startsWith t (js "/") = true ->
  replace_http_ws (s ++ t) = replace_http_ws s ++ t.
Proof.
  intros Hs Ht. unfold replace_http_ws.
  destruct (startsWith s (js "http")) eqn:H.
  - rewrite (startsWith_app s t _ H).
    destruct s as [|a [|b [|c [|d s']]]]; simpl in H;
      rewrite ?andb_false_r in H; try discriminate H.
    rewrite <- app_assoc. reflexivity.
  - assert (G : startsWith (s ++ t) (js "http") = false);
      [|rewrite G; reflexivity].
    destruct t as [|t0 t']; [discriminate Ht|].
    simpl in Ht. apply andb_true_iff in Ht as [Ht0 _].
    apply N.eqb_eq in Ht0. subst t0.
    destruct s as [|a [|b [|c [|d s']]]]; [congruence | | | | exact H];
      simpl in *;
      repeat match goal with
             | |- context [(?x =? ?y)%N] =>
                 is_var x; destruct (x =? y)%N; simpl; try reflexivity
             end;
      try reflexivity; try discriminate H.
Qed.

(** X1: whatever the origin override is, the WebSocket origin never begins
    with [http], and so neither does the admin dashboard WebSocket
    endpoint. *)
Theorem ws_url_never_http (env : ImportMetaEnv) :
  startsWith (Api.getWebSocketUrl env) (js "http") = false /\
  startsWith (Api.adminDashboard (Api.WS_ENDPOINTS env)) (js "http") = false.
Proof.
  assert (H : startsWith (Api.getWebSocketUrl env) (js "http") = false)
    by apply replace_http_ws_not_http.
  split; [exact H|].
  unfold Api.WS_ENDPOINTS; simpl Api.adminDashboard.
  destruct (Api.getWebSocketUrl env) as [|a [|b [|c [|d s']]]]; simpl in *;
    rewrite ?andb_false_r in *; try reflexivity.
  exact H.
Qed.

(** X2: for every origin override that begins with [http], the WebSocket
    origin is the override with that prefix replaced by [ws] and nothing
    else changed, so [http://h] gives [ws://h] and [https://h] gives
    [wss://h]; the admin dashboard endpoint is that origin followed by
    [/api/admin/ws/dashboard]. *)
Theorem ws_scheme_swap (env : ImportMetaEnv) (rest : jsstring)
        (Horigin : VITE_API_URL env = Some (js "http" ++ rest)) :
  Api.getWebSocketUrl env = js "ws" ++ rest /\
  Api.adminDashboard (Api.WS_ENDPOINTS env)
  = (js "ws" ++ rest) ++ js "/api/admin/ws/dashboard".
Proof.
  unfold Api.WS_ENDPOINTS, Api.getWebSocketUrl, Api.API_ROOT.
  rewrite Horigin. split; reflexivity.
Qed.

Lemma ws_scheme_swap_witness :
  Api.getWebSocketUrl {| VITE_API_URL := Some (js "http://10.0.0.5:9000") |}
  = js "ws://10.0.0.5:9000" /\
  Api.getWebSocketUrl {| VITE_API_URL := Some (js "https://cashper.in") |}
  = js "wss://cashper.in".
Proof.
  split.
  - exact (proj1 (ws_scheme_swap
                    {| VITE_API_URL := Some (js "http://10.0.0.5:9000") |}
                    (js "://10.0.0.5:9000") eq_refl)).
  - exact (proj1 (ws_scheme_swap
                    {| VITE_API_URL := Some (js "https://cashper.in") |}
                    (js "s://cashper.in") eq_refl)).
Defined.

(** X3: whenever a non-empty origin override is configured, the admin
    dashboard WebSocket endpoint is the admin HTTP endpoint with its scheme
    swapped, followed by [/ws/dashboard]: both address the same host. *)
Theorem ws_endpoint_follows_admin_endpoint (env : ImportMetaEnv)
        (Horigin : truthy_opt (VITE_API_URL env) = true) :
  Api.adminDashboard (Api.WS_ENDPOINTS env)
  = replace_http_ws (Api.admin (Api.API_ENDPOINTS env)) ++ js "/ws/dashboard".
Proof.
  unfold Api.WS_ENDPOINTS, Api.getWebSocketUrl, Api.API_ENDPOINTS, Api.API_ROOT.
  simpl Api.adminDashboard. simpl Api.admin.
  destruct (VITE_API_URL env) as [u|]; [|discriminate Horigin].
  simpl in Horigin. unfold or_else. rewrite Horigin, Horigin.
  rewrite replace_http_ws_app_path;
    [ | destruct u; [discriminate Horigin | discriminate] | reflexivity ].
  rewrite <- app_assoc. reflexivity.
Qed.

Lemma ws_endpoint_follows_admin_endpoint_witness :
  Api.adminDashboard (Api.WS_ENDPOINTS remoteOrigin)
  = replace_http_ws (js "https://api.example.com/api/admin")
    ++ js "/ws/dashboard".
Proof. exact (ws_endpoint_follows_admin_endpoint remoteOrigin eq_refl). Defined.

Lemma NoDup_map_app (root : jsstring) (l : list jsstring) :
  NoDup l -> NoDup (List.map (fun p => root ++ p) l).
Proof.
  intros H. induction H as [|x l Hx Hl IH]; simpl; constructor; [|exact IH].
  intros Hin. apply in_map_iff in Hin as (y & Hy & Hin).
  apply app_inv_head in Hy. subst y. exact (Hx Hin).
Qed.

(** X4: under every origin override, the API base and the twenty-one
    entries of the HTTP endpoint table are pairwise distinct URLs: no two
    capabilities are routed to the same address. *)
Theorem endpoint_urls_distinct (env : ImportMetaEnv) :
  NoDup (Api.API_BASE_URL env :: Api.endpoint_urls (Api.API_ENDPOINTS env)).
Proof.
  change (Api.API_BASE_URL env :: Api.endpoint_urls (Api.API_ENDPOINTS env))
    with (List.map (fun p => Api.API_ROOT env ++ p)
                   (Api.API_BASE_URL sameOrigin
                      :: Api.endpoint_urls (Api.API_ENDPOINTS sameOrigin))).
  apply NoDup_map_app.
  repeat (constructor;
          [ simpl; intros H;
            repeat (destruct H as [H | H]; [discriminate H|]); exact H | ]).
  constructor.
Qed.

Lemma startsWith_under_api (root s : jsstring) :
  startsWith s (js "/api/") = true ->
  startsWith (root ++ s) (root ++ js "/api/") = true.
Proof.
  intros H. induction root as [|c root IH]; [exact H|].
  simpl. rewrite N.eqb_refl. exact IH.
Qed.

(** X5: a non-empty origin override is used verbatim: every entry of the
    endpoint table is the override followed by [/api/] and the capability
    path.  Nothing is normalised, so an override that already ends in
    [/api] yields endpoints under [/api/api/]. *)
Theorem endpoints_use_origin_verbatim (env : ImportMetaEnv) (u : jsstring)
        (Horigin : VITE_API_URL env = Some u) (Hu : u <> []) :
  Api.API_ROOT env = u /\
  Forall (fun url => startsWith url (u ++ js "/api/") = true)
         (Api.endpoint_urls (Api.API_ENDPOINTS env)).
Proof.
  assert (Hroot : Api.API_ROOT env = u).
  { unfold Api.API_ROOT. rewrite Horigin.
    destruct u; [congruence | reflexivity]. }
  split; [exact Hroot|].
  unfold Api.API_ENDPOINTS, Api.endpoint_urls. simpl. rewrite Hroot.
  repeat (constructor; [apply startsWith_under_api; reflexivity|]).
  constructor.
Qed.

Lemma endpoints_use_origin_verbatim_witness :
  Forall (fun url =>
            startsWith url (js "http://localhost:8000/api/api/") = true)
         (Api.endpoint_urls
            (Api.API_ENDPOINTS
               {| VITE_API_URL := Some (js "http://localhost:8000/api") |})).
Proof.
  refine (proj2 (endpoints_use_origin_verbatim
                   {| VITE_API_URL := Some (js "http://localhost:8000/api") |}
                   (js "http://localhost:8000/api") eq_refl _)).
  discriminate.
Defined.

(** X6: the three configuration modules resolve the same origin exactly
    when a non-empty override is configured.  With the override unset
    [config/api.js] resolves the empty origin while both copies of
    [api.config] resolve the local-development default; with the empty
    override the copy that falls back with [||] resolves the default
    while the other two resolve the empty origin. *)
Theorem origins_agree_iff_configured (env : ImportMetaEnv) :
  (Api.API_ROOT env = ApiConfig.API_BASE_URL env /\
   ApiConfig.API_BASE_URL env = ApiConfigFallback.API_BASE_URL env)
  <-> truthy_opt (VITE_API_URL env) = true.
Proof.
  unfold Api.API_ROOT, ApiConfig.API_BASE_URL, ApiConfig.envApiUrl,
    ApiConfigFallback.API_BASE_URL.
  destruct (VITE_API_URL env) as [[|c u]|]; simpl; split.
  - intros [_ H]. discriminate H.
  - discriminate.
  - reflexivity.
  - split; reflexivity.
  - intros [H _]. discriminate H.
  - discriminate.
Qed.

(* ================================================================== *)
(** * Further properties: asset URLs *)
(* ================================================================== *)

Lemma assetUrlOver_relative (base x : jsstring) :
  x <> [] ->
  startsWith x (js "http://") || startsWith x (js "https://") = false ->
  assetUrlOver base (Some x)
  = base ++ (if startsWith x (js "/") then x else js "/" ++ x).
Proof.
  intros Hx Habs. unfold assetUrlOver.
  rewrite (truthy_nonempty x Hx), Habs. reflexivity.
Qed.

Lemma assetUrlOver_empty_iff (base : jsstring) (path : option jsstring) :
  assetUrlOver base path = [] <-> path = None \/ path = Some [].
Proof.
  split.
  - destruct path as [[|c x]|]; [right; reflexivity | | left; reflexivity].
    unfold assetUrlOver. simpl negb. cbv iota.
    destruct (startsWith (c :: x) (js "http://")
              || startsWith (c :: x) (js "https://")); [discriminate|].
    intros H. apply app_eq_nil in H as [_ H].
    destruct (startsWith (c :: x) (js "/")); discriminate H.
  - intros [-> | ->]; reflexivity.
Qed.

(** X7: [getAssetUrl] returns the empty string exactly when the path is
    absent ([undefined] or [null]) or the empty string; every other path
    yields a non-empty URL, under every configuration and in both copies
    of [api.config]. *)
Theorem getAssetUrl_empty_iff (env : ImportMetaEnv) (path : option jsstring) :
  (ApiConfig.getAssetUrl env path = [] <-> path = None \/ path = Some []) /\
  (ApiConfigFallback.getAssetUrl env path = []
   <-> path = None \/ path = Some []).
Proof.
  rewrite getAssetUrl_over, getAssetUrl_fallback_over.
  split; apply assetUrlOver_empty_iff.
Qed.

(** X8: a relative path resolves to the same URL with or without its
    leading slash: for a non-empty [x] that is not an absolute URL and does
    not begin with a slash, [getAssetUrl x] and [getAssetUrl ("/" + x)] are
    both the base URL followed by a slash and [x]. *)
Theorem getAssetUrl_leading_slash (env : ImportMetaEnv) (x : jsstring)
        (Hx : x <> [])
        (Habs : startsWith x (js "http://") || startsWith x (js "https://")
                = false)
        (Hslash : startsWith x (js "/") = false) :
  ApiConfig.getAssetUrl env (Some x)
  = ApiConfig.API_BASE_URL env ++ js "/" ++ x /\
  ApiConfig.getAssetUrl env (Some (js "/" ++ x))
  = ApiConfig.getAssetUrl env (Some x) /\
  ApiConfigFallback.getAssetUrl env (Some (js "/" ++ x))
  = ApiConfigFallback.getAssetUrl env (Some x).
Proof.
  rewrite !getAssetUrl_over, !getAssetUrl_fallback_over.
  rewrite !(assetUrlOver_relative _ x Hx Habs), Hslash.
  repeat split; reflexivity.
Qed.

Lemma getAssetUrl_leading_slash_witness :
  ApiConfig.getAssetUrl remoteOrigin (Some (js "uploads/image.jpg"))
  = js "https://api.example.com/uploads/image.jpg" /\
  ApiConfig.getAssetUrl remoteOrigin (Some (js "/uploads/image.jpg"))
  = ApiConfig.getAssetUrl remoteOrigin (Some (js "uploads/image.jpg")).
Proof.
  destruct (getAssetUrl_leading_slash remoteOrigin (js "uploads/image.jpg"))
    as (H1 & H2 & _); [discriminate | reflexivity | reflexivity |].
  exact (conj H1 H2).
Defined.

(** X9: in the same-origin deployment (empty override) the copy of
    [getAssetUrl] that tests for [undefined] turns every non-empty path
    that is not an absolute URL and does not begin with two slashes into
    an origin-relative path. *)
Theorem getAssetUrl_same_origin_relative (env : ImportMetaEnv) (x : jsstring)
        (Hempty : VITE_API_URL env = Some [])
        (Hx : x <> [])
        (Habs : startsWith x (js "http://") || startsWith x (js "https://")
                = false)
        (Hhost : startsWith x (js "//") = false) :
  isOriginRelative (ApiConfig.getAssetUrl env (Some x)) = true.
Proof.
  rewrite getAssetUrl_over, (assetUrlOver_relative _ x Hx Habs).
  unfold ApiConfig.API_BASE_URL, ApiConfig.envApiUrl. rewrite Hempty.
  unfold isOriginRelative. rewrite app_nil_l.
  destruct (startsWith x (js "/")) eqn:Hslash.
  - rewrite Hslash, Hhost. reflexivity.
  - destruct x as [|c x]; [congruence|].
    simpl in Hslash. simpl. rewrite Hslash. reflexivity.
Qed.

Lemma getAssetUrl_same_origin_relative_witness :
  isOriginRelative
    (ApiConfig.getAssetUrl sameOrigin (Some (js "uploads/doc.pdf"))) = true.
Proof.
  apply getAssetUrl_same_origin_relative;
    [reflexivity | discriminate | reflexivity | reflexivity].
Defined.

(** X10: in the same-origin deployment a path that begins with two slashes
    is returned unchanged by that copy of [getAssetUrl]: the result is a
    protocol-relative reference naming its own host, not an
    origin-relative path. *)
Theorem getAssetUrl_same_origin_double_slash
        (env : ImportMetaEnv) (x : jsstring)
        (Hempty : VITE_API_URL env = Some [])
        (Hhost : startsWith x (js "//") = true) :
  ApiConfig.getAssetUrl env (Some x) = x /\
  isOriginRelative (ApiConfig.getAssetUrl env (Some x)) = false.
Proof.
  assert (Hslash : startsWith x (js "/") = true).
  { destruct x as [|c x]; [discriminate Hhost|].
    simpl in *. apply andb_true_iff in Hhost as [-> _]. reflexivity. }
  assert (E : ApiConfig.getAssetUrl env (Some x) = x).
  { rewrite getAssetUrl_over.
    unfold ApiConfig.API_BASE_URL, ApiConfig.envApiUrl. rewrite Hempty.
    apply assetUrlOver_empty_base_slash. exact Hslash. }
  split; [exact E|].
  rewrite E. unfold isOriginRelative. rewrite Hslash, Hhost. reflexivity.
Qed.

Lemma getAssetUrl_same_origin_double_slash_witness :
  ApiConfig.getAssetUrl sameOrigin (Some (js "//other.example/x.png"))
  = js "//other.example/x.png".
Proof.
  exact (proj1 (getAssetUrl_same_origin_double_slash
                  sameOrigin (js "//other.example/x.png")
                  eq_refl eq_refl)).
Defined.

(** X11: the copy of [api.config] that falls back with [||] never resolves
    an empty base, and under an origin override that is unset, empty, or
    begins with [http://] or [https://] its [getAssetUrl] maps every
    non-empty path to an absolute [http://] or [https://] URL. *)
Theorem getAssetUrl_fallback_absolute (env : ImportMetaEnv) (x : jsstring)
        (Horigin : httpOrEmptyOrigin env = true)
        (Hx : x <> []) :
  ApiConfigFallback.API_BASE_URL env <> [] /\
  startsWith (ApiConfigFallback.getAssetUrl env (Some x)) (js "http://")
  || startsWith (ApiConfigFallback.getAssetUrl env (Some x)) (js "https://")
  = true.
Proof.
  pose proof (httpOrEmptyOrigin_fallback_base env Horigin) as Hbase.
  split.
  - intros E. rewrite E in Hbase. discriminate Hbase.
  - rewrite getAssetUrl_fallback_over.
    destruct (startsWith x (js "http://") || startsWith x (js "https://"))
      eqn:Habs.
    + rewrite (assetUrlOver_absolute _ x Habs). exact Habs.
    + rewrite (assetUrlOver_relative _ x Hx Habs).
      apply orb_true_iff in Hbase as [H | H];
        rewrite (startsWith_app _ _ _ H); [reflexivity | apply orb_true_r].
Qed.

Lemma getAssetUrl_fallback_absolute_witness :
  ApiConfigFallback.getAssetUrl sameOrigin (Some (js "uploads/a.png"))
  = js "http://localhost:8000/uploads/a.png" /\
  startsWith (ApiConfigFallback.getAssetUrl sameOrigin
                (Some (js "uploads/a.png"))) (js "http://")
  || startsWith (ApiConfigFallback.getAssetUrl sameOrigin
                   (Some (js "uploads/a.png"))) (js "https://")
  = true.
Proof.
  split; [reflexivity|].
  refine (proj2 (getAssetUrl_fallback_absolute
                   sameOrigin (js "uploads/a.png") eq_refl _)).
  discriminate.
Defined.

(** The base URLs under which a resolved asset URL is recognised again:
    the empty base, and the bases that, followed by a slash, begin with
    [http://] or [https://]. *)
Lemma assetUrlOver_idempotent_slash (base x : jsstring) :
  base = [] \/
  startsWith (base ++ js "/") (js "http://")
  || startsWith (base ++ js "/") (js "https://") = true ->
  assetUrlOver base (Some (assetUrlOver base (Some x)))
  = assetUrlOver base (Some x).
Proof.
  intros Hbase. apply assetUrlOver_fixed.
  destruct x as [|c x]; [left; reflexivity|].
  destruct (startsWith (c :: x) (js "http://")
            || startsWith (c :: x) (js "https://")) eqn:Habs.
  - rewrite (assetUrlOver_absolute _ _ Habs). right; left; exact Habs.
  - rewrite (assetUrlOver_relative base (c :: x) ltac:(discriminate) Habs).
    right. destruct Hbase as [-> | Hbase].
    + right. split; [reflexivity | apply normalized_starts_with_slash].
    + left.
      assert (E : exists n',
                 (if startsWith (c :: x) (js "/") then c :: x
                  else js "/" ++ c :: x) = js "/" ++ n').
      { destruct (startsWith (c :: x) (js "/")) eqn:Hs; [|eauto].
        simpl in Hs. apply andb_true_iff in Hs as [Hc _].
        apply N.eqb_eq in Hc. subst c. exists x. reflexivity. }
      destruct E as [n' ->]. rewrite app_assoc.
      apply orb_true_iff in Hbase as [H | H];
        rewrite (startsWith_app _ _ _ H); [reflexivity | apply orb_true_r].
Qed.

Lemma probe_not_http (b : jsstring) :
  startsWith (b ++ js "/") (js "http://") = false ->
  startsWith (b ++ js "/a") (js "http://") = false.
Proof.
  destruct b as [|b0 [|b1 [|b2 [|b3 [|b4 [|b5 [|b6 b']]]]]]];
    simpl; intros H; rewrite ?andb_false_r, ?andb_true_r in *;
    reflexivity || exact H.
Qed.

Lemma probe_not_https (b : jsstring) :
  startsWith (b ++ js "/") (js "https://") = false ->
  startsWith (b ++ js "/a") (js "https://") = false.
Proof.
  destruct b as [|b0 [|b1 [|b2 [|b3 [|b4 [|b5 [|b6 [|b7 b']]]]]]]];
    simpl; intros H; rewrite ?andb_false_r, ?andb_true_r in *;
    reflexivity || exact H.
Qed.

(** Under any other base, resolving [a] twice prefixes the base twice. *)
Lemma assetUrlOver_not_idempotent (base : jsstring) :
  base <> [] ->
  startsWith (base ++ js "/") (js "http://")
  || startsWith (base ++ js "/") (js "https://") = false ->
  assetUrlOver base (Some (assetUrlOver base (Some (js "a"))))
  <> assetUrlOver base (Some (js "a")).
Proof.
  intros Hne Hbase. apply orb_false_iff in Hbase as [H1 H2].
  rewrite (assetUrlOver_relative base (js "a"));
    [ | discriminate | reflexivity ].
  change (base ++ (if startsWith (js "a") (js "/") then js "a"
                   else js "/" ++ js "a"))
    with (base ++ js "/a").
  rewrite (assetUrlOver_relative base (base ++ js "/a")).
  - intros E. apply (f_equal (@List.length N)) in E.
    destruct (startsWith (base ++ js "/a") (js "/"));
      rewrite !length_app in E; simpl in E;
      destruct base; [congruence | simpl in E; lia
                     | congruence | simpl in E; lia].
  - destruct base; [congruence | discriminate].
  - rewrite (probe_not_http base H1), (probe_not_https base H2). reflexivity.
Qed.

(** X12: [getAssetUrl] is idempotent on every string exactly when its base
    URL is empty or, once followed by a slash, begins with [http://] or
    [https://]; this holds for both copies of [api.config], each over its
    own base URL. *)
Theorem getAssetUrl_idempotent_iff (env : ImportMetaEnv) :
  ((forall x : jsstring,
       ApiConfig.getAssetUrl env (Some (ApiConfig.getAssetUrl env (Some x)))
       = ApiConfig.getAssetUrl env (Some x))
   <-> ApiConfig.API_BASE_URL env = [] \/
       startsWith (ApiConfig.API_BASE_URL env ++ js "/") (js "http://")
       || startsWith (ApiConfig.API_BASE_URL env ++ js "/") (js "https://")
       = true) /\
  ((forall x : jsstring,
       ApiConfigFallback.getAssetUrl env
         (Some (ApiConfigFallback.getAssetUrl env (Some x)))
       = ApiConfigFallback.getAssetUrl env (Some x))
   <-> startsWith (ApiConfigFallback.API_BASE_URL env ++ js "/")
                  (js "http://")
       || startsWith (ApiConfigFallback.API_BASE_URL env ++ js "/")
                     (js "https://")
       = true).
Proof.
  assert (G : forall base,
             (forall x, assetUrlOver base (Some (assetUrlOver base (Some x)))
                        = assetUrlOver base (Some x))
             <-> base = [] \/
                 startsWith (base ++ js "/") (js "http://")
                 || startsWith (base ++ js "/") (js "https://") = true).
  { intros base. split.
    - intros Hall.
      destruct base as [|c base]; [left; reflexivity|]. right.
      destruct (startsWith ((c :: base) ++ js "/") (js "http://")
                || startsWith ((c :: base) ++ js "/") (js "https://"))
        eqn:Hb; [reflexivity|].
      exfalso.
      apply (assetUrlOver_not_idempotent (c :: base));
        [discriminate | exact Hb | apply Hall].
    - intros Hbase x. apply assetUrlOver_idempotent_slash, Hbase. }
  split.
  - apply G.
  - rewrite (G (ApiConfigFallback.API_BASE_URL env)).
    split; [|intros H; right; exact H].
    intros [E | H]; [|exact H].
    exfalso. revert E. unfold ApiConfigFallback.API_BASE_URL, or_else.
    destruct (VITE_API_URL env) as [[|c u]|]; discriminate.
Qed.

(* ================================================================== *)
(** * Further properties: the access guard *)
(* ================================================================== *)

Lemma isUserAdmin_of_value (v : JSValue) (w : World) :
  isUserAdmin_of v w
  = match v with
    | JNull => (Throw TypeError, w)
    | JObject ms =>
        (Normal (strict_eq_true (lookup_member (js "isAdmin") ms)
                 || strict_eq_string (lookup_member (js "role") ms)
                                     (js "admin")), w)
    | _ => (Normal false, w)
    end.
Proof. destruct v; try reflexivity. apply isUserAdmin_of_object. Qed.

(** The whole decision table of the guard. *)
Lemma ProtectedRoute_table {E : Type} (element : E) (isAdmin : bool)
      (w : World) :
  ProtectedRoute element isAdmin w
  = if negb (truthy_opt (getItem (localStorage w) (js "access_token")))
       || negb (truthy_opt (getItem (localStorage w) (js "user")))
    then (Normal (Navigate (js "/login") true), w)
    else if isAdmin then
      match JSON_parse (toString (getItem (localStorage w) (js "user"))) with
      | Throw e =>
          (Normal (Navigate (js "/login") true),
           logged (js "Error parsing user data:") e w)
      | Normal JNull =>
          (Normal (Navigate (js "/login") true),
           logged (js "Error parsing user data:") TypeError w)
      | Normal (JObject ms) =>
          (Normal
             (if strict_eq_true (lookup_member (js "isAdmin") ms)
                 || strict_eq_string (lookup_member (js "role") ms)
                                     (js "admin")
              then Element element
              else Navigate (js "/dashboard") true), w)
      | Normal _ => (Normal (Navigate (js "/dashboard") true), w)
      end
    else (Normal (Element element), w).
Proof.
  unfold ProtectedRoute, bind, localStorage_getItem.
  destruct (negb (truthy_opt (getItem (localStorage w) (js "access_token")))
            || negb (truthy_opt (getItem (localStorage w) (js "user"))));
    [reflexivity|].
  destruct isAdmin; [|reflexivity].
  unfold try_catch, lift, bind.
  destruct (JSON_parse (toString (getItem (localStorage w) (js "user"))))
    as [v|e]; [|reflexivity].
  rewrite isUserAdmin_of_value.
  destruct v as [| | | | |ms]; try reflexivity.
  destruct (strict_eq_true (lookup_member (js "isAdmin") ms)
            || strict_eq_string (lookup_member (js "role") ms) (js "admin"));
    reflexivity.
Qed.

Lemma ProtectedRoute_keeps_storage {E : Type} (element : E) (isAdmin : bool)
      (w : World) :
  localStorage (snd (ProtectedRoute element isAdmin w)) = localStorage w.
Proof.
  rewrite ProtectedRoute_table.
  destruct (negb (truthy_opt (getItem (localStorage w) (js "access_token")))
            || negb (truthy_opt (getItem (localStorage w) (js "user"))));
    [reflexivity|].
  destruct isAdmin; [|reflexivity].
  destruct (JSON_parse (toString (getItem (localStorage w) (js "user"))))
    as [[| | | | |ms]|e]; reflexivity.
Qed.

(** X13: the guard never throws: for every session store, protected
    element and [isAdmin] prop it completes normally with one of three
    results, a redirect to [/login], a redirect to [/dashboard], or the
    protected element, and a route without the [isAdmin] prop is never
    redirected to the dashboard. *)
Theorem ProtectedRoute_outcomes {E : Type} (element : E) (isAdmin : bool)
        (w : World) :
  exists r w',
    ProtectedRoute element isAdmin w = (Normal r, w') /\
    (r = Navigate (js "/login") true \/
     (r = Navigate (js "/dashboard") true /\ isAdmin = true) \/
     r = Element element).
Proof.
  rewrite ProtectedRoute_table.
  destruct (negb (truthy_opt (getItem (localStorage w) (js "access_token")))
            || negb (truthy_opt (getItem (localStorage w) (js "user"))));
    [eauto|].
  destruct isAdmin; [|eauto 6].
  destruct (JSON_parse (toString (getItem (localStorage w) (js "user"))))
    as [[| | | | |ms]|e]; eauto 7.
  destruct (strict_eq_true (lookup_member (js "isAdmin") ms)
            || strict_eq_string (lookup_member (js "role") ms) (js "admin"));
    eauto 7.
Qed.

(** X14: evaluating the guard writes nothing to the session store and
    sends nothing on the network.  Its only effect is on the console: a
    route without the [isAdmin] prop logs nothing, and an admin route logs
    at most one line, and only when it redirects to the login page. *)
Theorem ProtectedRoute_effects {E : Type} (element : E) (isAdmin : bool)
        (w : World) :
  let run := ProtectedRoute element isAdmin w in
  localStorage (snd run) = localStorage w /\
  network (snd run) = network w /\
  (console (snd run) = console w \/
   exists e,
     isAdmin = true /\
     fst run = Normal (Navigate (js "/login") true) /\
     console (snd run)
     = console w ++ [(js "Error parsing user data:", e)]).
Proof.
  cbv zeta. rewrite ProtectedRoute_table.
  destruct (negb (truthy_opt (getItem (localStorage w) (js "access_token")))
            || negb (truthy_opt (getItem (localStorage w) (js "user"))));
    [simpl; auto|].
  destruct isAdmin; [|simpl; auto].
  destruct (JSON_parse (toString (getItem (localStorage w) (js "user"))))
    as [[| | | | |ms]|e]; simpl; eauto 7.
Qed.

(** X15: the guard's decision depends on the session store alone, so
    evaluating it again after a run (on every render) yields the same
    decision. *)
Theorem ProtectedRoute_rerender {E : Type} (element : E) (isAdmin : bool)
        (w1 w2 : World) :
  (localStorage w1 = localStorage w2 ->
   fst (ProtectedRoute element isAdmin w1)
   = fst (ProtectedRoute element isAdmin w2)) /\
  fst (ProtectedRoute element isAdmin
                      (snd (ProtectedRoute element isAdmin w1)))
  = fst (ProtectedRoute element isAdmin w1).
Proof.
  assert (G : forall a b, localStorage a = localStorage b ->
                          fst (ProtectedRoute element isAdmin a)
                          = fst (ProtectedRoute element isAdmin b)).
  { intros a b Hst. rewrite !ProtectedRoute_table, Hst.
    destruct (negb (truthy_opt (getItem (localStorage b) (js "access_token")))
              || negb (truthy_opt (getItem (localStorage b) (js "user"))));
      [reflexivity|].
    destruct isAdmin; [|reflexivity].
    destruct (JSON_parse (toString (getItem (localStorage b) (js "user"))))
      as [[| | | | |ms]|e]; reflexivity. }
  split; [apply G|].
  apply G, ProtectedRoute_keeps_storage.
Qed.

Lemma ProtectedRoute_rerender_witness :
  let w := session (Some (js "t")) (Some (js "{not json")) in
  fst (ProtectedRoute tt true (logged (js "x") SyntaxError w))
  = fst (ProtectedRoute tt true w).
Proof.
  intros w.
  exact (proj1 (ProtectedRoute_rerender
                  tt true (logged (js "x") SyntaxError w) w) eq_refl).
Defined.

Lemma truthy_opt_true (v : option jsstring) :
  truthy_opt v = true <-> exists s, v = Some s /\ s <> [].
Proof.
  destruct v as [[|c s]|]; simpl; split; try discriminate.
  - intros (s & H & Hs). inversion H. congruence.
  - intros _. exists (c :: s). split; [reflexivity | discriminate].
  - reflexivity.
  - intros (s & H & _). discriminate H.
Qed.

(** X16: a route without the [isAdmin] prop renders the protected element
    exactly when the session store holds a non-empty token and a non-empty
    profile text; the content of the profile plays no part. *)
Theorem session_route_admits_iff {E : Type} (element : E) (w : World) :
  fst (ProtectedRoute element false w) = Normal (Element element)
  <-> truthy_opt (getItem (localStorage w) (js "access_token")) = true /\
      truthy_opt (getItem (localStorage w) (js "user")) = true.
Proof.
  rewrite ProtectedRoute_table.
  destruct (truthy_opt (getItem (localStorage w) (js "access_token")));
    destruct (truthy_opt (getItem (localStorage w) (js "user")));
    simpl; split; try discriminate; try tauto;
    intros [H1 H2]; discriminate.
Qed.

(** X17: an admin route renders the protected element only for an
    elevated profile: it does so exactly when the session store holds a
    non-empty token and a non-empty profile text that parses to a JSON
    object whose [isAdmin] member is the boolean [true] or whose [role]
    member is the string [admin]. *)
Theorem admin_route_admits_iff {E : Type} (element : E) (w : World) :
  fst (ProtectedRoute element true w) = Normal (Element element)
  <-> exists t u profile,
        getItem (localStorage w) (js "access_token") = Some t /\ t <> [] /\
        getItem (localStorage w) (js "user") = Some u /\ u <> [] /\
        JSON_parse u = Normal (JObject profile) /\
        hasElevatedPrivilege profile.
Proof.
  rewrite ProtectedRoute_table. split.
  - destruct (truthy_opt (getItem (localStorage w) (js "access_token")))
      eqn:Ht; [|discriminate].
    destruct (truthy_opt (getItem (localStorage w) (js "user")))
      eqn:Hu; [|discriminate].
    apply truthy_opt_true in Ht as (t & Ht & Hnt).
    apply truthy_opt_true in Hu as (u & Hu & Hnu).
    rewrite Hu. simpl.
    destruct (JSON_parse u) as [[| | | | |ms]|e] eqn:Hp; simpl;
      try discriminate.
    destruct (strict_eq_true (lookup_member (js "isAdmin") ms)
              || strict_eq_string (lookup_member (js "role") ms) (js "admin"))
      eqn:Hel; [|discriminate].
    intros _. exists t, u, ms.
    repeat split; try assumption. apply elevated_iff. exact Hel.
  - intros (t & u & ms & Ht & Hnt & Hu & Hnu & Hp & Hel).
    rewrite Ht, Hu. unfold truthy_opt.
    rewrite (truthy_nonempty t Hnt), (truthy_nonempty u Hnu). simpl.
    rewrite Hp. apply elevated_iff in Hel. rewrite Hel. reflexivity.
Qed.

(** X18: on an admin route a profile text that parses to a JSON value
    other than an object never admits: the text [null] ends in a caught
    [TypeError], which is logged, and a redirect to the login page; a
    boolean, number, string or array redirects to the dashboard. *)
Theorem admin_route_non_object_profile
        {E : Type} (element : E) (w : World) (t u : jsstring) (v : JSValue)
        (Htoken : getItem (localStorage w) (js "access_token") = Some t)
        (Ht : t <> [])
        (Huser : getItem (localStorage w) (js "user") = Some u)
        (Hu : u <> [])
        (Hparse : JSON_parse u = Normal v)
        (Hshape : forall members, v <> JObject members) :
  ProtectedRoute element true w
  = match v with
    | JNull => (Normal (Navigate (js "/login") true),
                logged (js "Error parsing user data:") TypeError w)
    | _ => (Normal (Navigate (js "/dashboard") true), w)
    end.
Proof.
  rewrite (ProtectedRoute_admin element w t u Htoken Ht Huser Hu), Hparse,
    isUserAdmin_of_value.
  destruct v as [| | | | |ms]; try reflexivity.
  exfalso. exact (Hshape ms eq_refl).
Qed.

Lemma admin_route_non_object_profile_witness :
  ProtectedRoute tt true (session (Some (js "t")) (Some (js " null ")))
  = (Normal (Navigate (js "/login") true),
     logged (js "Error parsing user data:") TypeError
            (session (Some (js "t")) (Some (js " null ")))) /\
  ProtectedRoute tt true (session (Some (js "t")) (Some (js "[1, 2]")))
  = (Normal (Navigate (js "/dashboard") true),
     session (Some (js "t")) (Some (js "[1, 2]"))).
Proof.
  split.
  - refine (@admin_route_non_object_profile unit tt
              (session (Some (js "t")) (Some (js " null ")))
              (js "t") (js " null ") JNull
              eq_refl _ eq_refl _ eq_refl _); discriminate.
  - refine (@admin_route_non_object_profile unit tt
              (session (Some (js "t")) (Some (js "[1, 2]")))
              (js "t") (js "[1, 2]")
              (JArray [JNumber (js "1"); JNumber (js "2")])
              eq_refl _ eq_refl _ eq_refl _); discriminate.
Defined.

(** X19: admin access implies session access: whenever an admin route
    renders the protected element, a route without the [isAdmin] prop
    renders it too, in the same world and without logging. *)
Theorem admin_access_implies_session_access
        {E : Type} (element : E) (w : World)
        (Hadmin : fst (ProtectedRoute element true w)
                  = Normal (Element element)) :
  ProtectedRoute element false w = (Normal (Element element), w).
Proof.
  revert Hadmin. rewrite !ProtectedRoute_table.
  destruct (negb (truthy_opt (getItem (localStorage w) (js "access_token")))
            || negb (truthy_opt (getItem (localStorage w) (js "user"))));
    [discriminate | reflexivity].
Qed.

Lemma admin_access_implies_session_access_witness :
  let w := session (Some (js "t")) (Some (json_text "{'role':'admin'}")) in
  ProtectedRoute tt false w = (Normal (Element tt), w).
Proof.
  intros w. exact (admin_access_implies_session_access tt w eq_refl).
Defined.

(* ================================================================== *)
(** * Further properties: the application aggregator *)
(* ================================================================== *)

(** X20: when reading the token itself throws, [getUserApplications] never
    calls the request transport: whatever [apiRequest] is, the error is
    logged once and rethrown unchanged. *)
Theorem token_failure_skips_transport
        (env : ImportMetaEnv) (apiRequest : Request -> JS JSValue)
        (getAuthToken : JS (option jsstring)) (w w' : World) (e : Exn)
        (Hthrow : getAuthToken w = (Throw e, w')) :
  DashboardApi.getUserApplications env apiRequest getAuthToken w
  = (Throw e, logged (js "Error fetching user applications:") e w').
Proof.
  unfold DashboardApi.getUserApplications, try_catch, bind, logged.
  rewrite Hthrow. reflexivity.
Qed.

Lemma token_failure_skips_transport_witness :
  let w := session None None in
  DashboardApi.getUserApplications
    sameOrigin (authenticatedTransport (fun _ => Normal (JArray [])))
    (throw AuthError) w
  = (Throw AuthError,
     logged (js "Error fetching user applications:") AuthError w) /\
  network
    (snd (DashboardApi.getUserApplications
            sameOrigin
            (authenticatedTransport (fun _ => Normal (JArray [])))
            (throw AuthError) w)) = [].
Proof.
  intros w.
  pose proof (@token_failure_skips_transport
                sameOrigin
                (authenticatedTransport (fun _ => Normal (JArray [])))
                (throw AuthError) w w AuthError eq_refl) as H.
  split; [exact H | rewrite H; reflexivity].
Defined.

(** X21: for every token the reader yields, [getUserApplications] hands
    the transport one GET request whose URL is the resolved origin followed
    by [/api/dashboard/applications] and whose [Authorization] header is
    [Bearer ] followed by the token.  A response is returned verbatim with
    nothing logged; a failure is rethrown as the same error after exactly
    one console line. *)
Theorem getUserApplications_forwards
        (env : ImportMetaEnv) (apiRequest : Request -> JS JSValue)
        (getAuthToken : JS (option jsstring)) (w w1 : World)
        (token : jsstring)
        (Htoken : getAuthToken w = (Normal (Some token), w1)) :
  let request :=
    {| url := Api.API_ROOT env ++ js "/api/dashboard/applications";
       method := js "GET";
       headers := [ (js "Authorization", js "Bearer " ++ token);
                    (js "Content-Type", js "application/json") ] |} in
  (forall body w2,
      apiRequest request w1 = (Normal body, w2) ->
      DashboardApi.getUserApplications env apiRequest getAuthToken w
      = (Normal body, w2)) /\
  (forall e w2,
      apiRequest request w1 = (Throw e, w2) ->
      DashboardApi.getUserApplications env apiRequest getAuthToken w
      = (Throw e,
         {| localStorage := localStorage w2;
            console := console w2
                       ++ [(js "Error fetching user applications:", e)];
            network := network w2 |})).
Proof.
  intros request.
  assert (R : DashboardApi.applications_request env (Some token) = request).
  { unfold DashboardApi.applications_request, DashboardApi.API_BASE_URL,
      request, Api.API_ENDPOINTS.
    simpl Api.dashboard. rewrite <- app_assoc. reflexivity. }
  unfold DashboardApi.getUserApplications, try_catch, bind.
  rewrite Htoken, R.
  split; intros x w2 H; rewrite H; reflexivity.
Qed.

Lemma getUserApplications_forwards_witness :
  let w := session (Some (js "abc")) None in
  DashboardApi.getUserApplications
    remoteOrigin (authenticatedTransport (fun _ => Throw (HTTPError 500)))
    storedAuthToken w
  = (Throw (HTTPError 500),
     {| localStorage := [(js "access_token", js "abc")];
        console := [(js "Error fetching user applications:", HTTPError 500)];
        network :=
          [ {| url := js "https://api.example.com/api/dashboard/applications";
               method := js "GET";
               headers := [ (js "Authorization", js "Bearer abc");
                            (js "Content-Type", js "application/json") ] |} ]
     |}).
Proof.
  intros w.
  exact (proj2 (@getUserApplications_forwards
                  remoteOrigin
                  (authenticatedTransport (fun _ => Throw (HTTPError 500)))
                  storedAuthToken w w (js "abc") eq_refl)
               (HTTPError 500) _ eq_refl).
Defined.

(* ================================================================== *)
(** * Further properties: worked instances *)
(* ================================================================== *)

Lemma origins_agree_iff_configured_witness :
  Api.API_ROOT remoteOrigin = ApiConfig.API_BASE_URL remoteOrigin /\
  ApiConfig.API_BASE_URL remoteOrigin
  = ApiConfigFallback.API_BASE_URL remoteOrigin.
Proof.
  exact (proj2 (origins_agree_iff_configured remoteOrigin) eq_refl).
Defined.

Lemma getAssetUrl_empty_iff_witness :
  ApiConfig.getAssetUrl sameOrigin None = [] /\
  ApiConfigFallback.getAssetUrl unsetOrigin (Some []) = [].
Proof.
  split.
  - exact (proj2 (proj1 (getAssetUrl_empty_iff sameOrigin None))
                 (or_introl eq_refl)).
  - exact (proj2 (proj2 (getAssetUrl_empty_iff unsetOrigin (Some [])))
                 (or_intror eq_refl)).
Defined.

Lemma getAssetUrl_idempotent_iff_witness :
  let env := {| VITE_API_URL := Some (js "https:/") |} in
  ApiConfig.getAssetUrl env
    (Some (ApiConfig.getAssetUrl env (Some (js "cdn.example.com/a.png"))))
  = ApiConfig.getAssetUrl env (Some (js "cdn.example.com/a.png")).
Proof.
  intros env.
  exact (proj2 (proj1 (getAssetUrl_idempotent_iff env))
               (or_intror eq_refl) (js "cdn.example.com/a.png")).
Defined.

Lemma session_route_admits_iff_witness :
  fst (ProtectedRoute tt false
         (session (Some (js "t")) (Some (js "{not json"))))
  = Normal (Element tt).
Proof.
  exact (proj2 (session_route_admits_iff
                  tt (session (Some (js "t")) (Some (js "{not json"))))
               (conj eq_refl eq_refl)).
Defined.

Lemma admin_route_admits_iff_witness :
  let u := json_text "{'isAdmin':true,'role':'user'}" in
  fst (ProtectedRoute tt true (session (Some (js "t")) (Some u)))
  = Normal (Element tt).
Proof.
  intros u.
  refine (proj2 (admin_route_admits_iff
                   tt (session (Some (js "t")) (Some u))) _).
  exists (js "t"), u,
    [(js "isAdmin", JBool true); (js "role", JString (js "user"))].
  repeat split; try discriminate. left. reflexivity.
Defined.
